(** * code-switch: database bootstrap and the provider blacklist core

    A shallow embedding of [services/database.go] (the SQLite bootstrap of the
    blacklist tables) together with the blacklist operations that run on those
    tables.

    The file is organised in layers:
    - [Sql]: the part of SQLite that the statements of [database.go] exercise
      (CREATE TABLE IF NOT EXISTS, INSERT, INSERT OR IGNORE, UPDATE, with
      column defaults, NOT NULL, UNIQUE and AUTOINCREMENT);
    - [Database]: [ensureBlacklistTables] and [InitDatabase], statement by
      statement;
    - [Blacklist]: settings, health records and the failure / recovery
      operations on top of the two tables. *)

From Stdlib Require Import ZArith Lia Ascii String.
From stdpp Require Import gmap strings list fin_maps.

Local Open Scope string_scope.
Local Open Scope Z_scope.

(** ** Errors and outcomes *)

(** A Go [error] value: either produced by a callee, or wrapped by
    [fmt.Errorf("<context>: %w", err)]. *)
Inductive error : Type :=
| ErrMsg (msg : string)
| ErrWrap (context : string) (inner : error).

(** What a Go call of result type [(A, error)] can do: return a value, return
    a non-nil error, or panic (a method call through a nil handle). *)
Inductive outcome (A : Type) : Type :=
| Ok (a : A)
| Err (e : error)
| Panic.
Arguments Ok {A} a.
Arguments Err {A} e.
Arguments Panic {A}.

Definition is_err {A} (o : outcome A) : bool :=
  match o with Err _ => true | _ => false end.

Definition is_ok {A} (o : outcome A) : bool :=
  match o with Ok _ => true | _ => false end.

(** [fmt.Errorf(context + ": %w", err)] applied to the error of [o]. *)
Definition wrap {A} (context : string) (o : outcome A) : outcome A :=
  match o with
  | Err e => Err (ErrWrap context e)
  | other => other
  end.

(** ** The store *)

Module Sql.

Inductive value : Type :=
| VNull
| VInt (z : Z)
| VText (s : string).

#[global] Instance value_eq_dec : EqDecision value.
Proof. solve_decision. Defined.

Inductive sqltype : Type := INTEGER | TEXT | DATETIME.

(** One column definition of a CREATE TABLE statement.  [col_autoinc] stands
    for [INTEGER PRIMARY KEY AUTOINCREMENT]; a column without a DEFAULT
    clause has [col_default = VNull]. *)
Record column : Type := Column {
  col_name : string;
  col_type : sqltype;
  col_autoinc : bool;
  col_notnull : bool;
  col_unique : bool;
  col_default : value
}.

(** A table definition: its columns and its table-level [UNIQUE(...)]
    constraints. *)
Record schema : Type := Schema {
  sch_cols : list column;
  sch_unique : list (list string)
}.

Abbreviation row := (gmap string value).

(** A table: definition, rows in insertion order, and the largest rowid
    handed out so far (the table's entry in [sqlite_sequence]). *)
Record table : Type := Table {
  tbl_schema : schema;
  tbl_rows : list row;
  tbl_seq : Z
}.

(** The database file: its tables by name.  Views, indexes and triggers are
    not part of the model. *)
Abbreviation store := (gmap string table).

(** The value a row holds in a column; a missing entry reads as NULL. *)
Definition col (r : row) (c : string) : value := default VNull (r !! c).

(** *** Constraints *)

Definition col_names (s : schema) : list string := map col_name (sch_cols s).

(** The column sets that must be unique: the primary key, every
    column-level UNIQUE, and every table-level UNIQUE(...). *)
Definition unique_sets (s : schema) : list (list string) :=
  map (fun c => [col_name c])
      (List.filter (fun c => col_autoinc c || col_unique c) (sch_cols s))
  ++ sch_unique s.

Definition is_null (v : value) : bool :=
  match v with VNull => true | _ => false end.

(** Two rows collide on a column set when they hold equal, non-NULL values
    in each of its columns (NULLs never collide in SQLite). *)
Definition agree_on (cs : list string) (r1 r2 : row) : bool :=
  forallb (fun c => negb (is_null (col r1 c)) && bool_decide (col r1 c = col r2 c)) cs.

Definition collides (s : schema) (r1 r2 : row) : bool :=
  existsb (fun cs => agree_on cs r1 r2) (unique_sets s).

Definition conflicts (s : schema) (r : row) (rows : list row) : bool :=
  existsb (collides s r) rows.

Definition notnull_ok (s : schema) (r : row) : bool :=
  forallb (fun c => negb (col_notnull c && is_null (col r (col_name c)))) (sch_cols s).

(** The rowid column must hold an integer ("datatype mismatch" otherwise). *)
Definition rowid_ok (s : schema) (r : row) : bool :=
  forallb (fun c => negb (col_autoinc c) ||
                    match col r (col_name c) with VInt _ => true | _ => false end)
          (sch_cols s).

Fixpoint rows_unique (s : schema) (rows : list row) : bool :=
  match rows with
  | [] => true
  | r :: rest => negb (conflicts s r rest) && rows_unique s rest
  end.

(** *** Statements *)

Inductive on_conflict : Type := OrAbort | OrIgnore.

Inductive stmt : Type :=
| CreateTableIfNotExists (name : string) (s : schema)
| Insert (oc : on_conflict) (name : string) (cols : list string) (vals : list value)
| Update (name : string) (sets : list (string * value)) (cond : list (string * value)).

Definition as_int (v : value) : Z :=
  match v with VInt z => z | _ => 0 end.

(** Largest integer held in column [c]. *)
Definition max_of (c : string) (rows : list row) : Z :=
  foldr (fun r acc => Z.max (as_int (col r c)) acc) 0 rows.

(** AUTOINCREMENT: one more than the largest rowid that is or ever was in
    the table.  SQLite's rowids are signed 64-bit integers, and an insert
    that would have to go past 9223372036854775807 fails there with
    SQLITE_FULL; this upper limit is left out of the model, and a statement
    that promises a generated rowid says how much room it assumes below the
    limit. *)
Definition next_rowid (t : table) (c : string) : Z :=
  1 + Z.max (tbl_seq t) (max_of c (tbl_rows t)).

(** The row an INSERT builds: listed columns take the given values, the
    rowid column is generated when absent or NULL, every other column takes
    its DEFAULT. *)
Definition build_row (t : table) (given : row) : row :=
  foldr (fun c acc =>
           let v := match given !! col_name c with
                    | Some v =>
                        if col_autoinc c && is_null v
                        then VInt (next_rowid t (col_name c)) else v
                    | None =>
                        if col_autoinc c
                        then VInt (next_rowid t (col_name c)) else col_default c
                    end in
           <[col_name c := v]> acc)
        ∅ (sch_cols (tbl_schema t)).

Definition row_seq (s : schema) (r : row) : Z :=
  foldr (fun c acc => if col_autoinc c then Z.max (as_int (col r (col_name c))) acc else acc)
        0 (sch_cols s).

Definition known_cols (s : schema) (cs : list string) : bool :=
  forallb (fun c => existsb (String.eqb c) (col_names s)) cs.

Definition constraint_failed : error := ErrMsg "constraint failed".

(** INSERT: the row is built, rowid included, and then checked.  A row that
    breaks NOT NULL or UNIQUE is an error, or is skipped under OR IGNORE; by
    then AUTOINCREMENT has taken its rowid, so the sequence moves on for a
    skipped row too. *)
Definition insert_into (oc : on_conflict) (t : table)
           (cols : list string) (vals : list value) : outcome table :=
  if negb (Nat.eqb (length cols) (length vals)) then Err (ErrMsg "values for columns")
  else if negb (known_cols (tbl_schema t) cols) then Err (ErrMsg "no such column")
  else
    let r := build_row t (list_to_map (zip cols vals)) in
    if negb (rowid_ok (tbl_schema t) r) then Err (ErrMsg "datatype mismatch")
    else if notnull_ok (tbl_schema t) r && negb (conflicts (tbl_schema t) r (tbl_rows t))
    then Ok {| tbl_schema := tbl_schema t;
               tbl_rows := tbl_rows t ++ [r];
               tbl_seq := Z.max (tbl_seq t) (row_seq (tbl_schema t) r) |}
    else match oc with
         | OrIgnore =>
             Ok {| tbl_schema := tbl_schema t;
                   tbl_rows := tbl_rows t;
                   tbl_seq := Z.max (tbl_seq t) (row_seq (tbl_schema t) r) |}
         | OrAbort => Err constraint_failed
         end.

(** [WHERE c1 = v1 AND c2 = v2 ...] (a comparison with NULL never holds). *)
Definition matches (cond : list (string * value)) (r : row) : bool :=
  forallb (fun cv => negb (is_null cv.2) && bool_decide (col r cv.1 = cv.2)) cond.

Definition assign (sets : list (string * value)) (r : row) : row :=
  foldr (fun cv acc => <[cv.1 := cv.2]> acc) r sets.

(** UPDATE ... SET ... WHERE ...: the statement is rejected as a whole, and
    changes nothing, when the updated rows would break a constraint. *)
Definition update_table (t : table) (sets cond : list (string * value)) : outcome table :=
  if negb (known_cols (tbl_schema t) (map fst sets) && known_cols (tbl_schema t) (map fst cond))
  then Err (ErrMsg "no such column")
  else
    let rows' := map (fun r => if matches cond r then assign sets r else r) (tbl_rows t) in
    if negb (forallb (rowid_ok (tbl_schema t)) rows') then Err (ErrMsg "datatype mismatch")
    else if forallb (notnull_ok (tbl_schema t)) rows' && rows_unique (tbl_schema t) rows'
    then Ok {| tbl_schema := tbl_schema t; tbl_rows := rows'; tbl_seq := tbl_seq t |}
    else Err constraint_failed.

Definition no_such_table : error := ErrMsg "no such table".

(** The effect of one statement on the database file. *)
Definition exec (db : store) (q : stmt) : outcome store :=
  match q with
  | CreateTableIfNotExists name s =>
      match db !! name with
      | Some _ => Ok db
      | None => Ok (<[name := {| tbl_schema := s; tbl_rows := []; tbl_seq := 0 |}]> db)
      end
  | Insert oc name cols vals =>
      match db !! name with
      | None => Err no_such_table
      | Some t =>
          match insert_into oc t cols vals with
          | Ok t' => Ok (<[name := t']> db)
          | Err e => Err e
          | Panic => Panic
          end
      end
  | Update name sets cond =>
      match db !! name with
      | None => Err no_such_table
      | Some t =>
          match update_table t sets cond with
          | Ok t' => Ok (<[name := t']> db)
          | Err e => Err e
          | Panic => Panic
          end
      end
  end.

(** [SELECT * FROM name WHERE cond]. *)
Definition select (db : store) (name : string) (cond : list (string * value)) : outcome (list row) :=
  match db !! name with
  | None => Err no_such_table
  | Some t => Ok (List.filter (matches cond) (tbl_rows t))
  end.

(** [SELECT COUNT( * ) FROM name]. *)
Definition count (db : store) (name : string) : outcome Z :=
  match db !! name with
  | None => Err no_such_table
  | Some t => Ok (Z.of_nat (length (tbl_rows t)))
  end.

End Sql.

(** ** database.go *)

Module Database.
Import Sql.

(** *** The process and its environment *)

(** The [*sql.DB] that [xdb.DB] hands out. *)
Inductive sqlDB : Type := Conn (name : string).

(** One entry of [xdb.Config]. *)
Record Config : Type := {
  Name : string;
  Driver : string;
  DSN : string
}.

(** The two lines [InitDatabase] prints. *)
Inductive log_line : Type :=
| PrewarmFailed (e : error)
| PrewarmDone (count : Z).

(** What the code can observe and change: the database file, the outcomes of
    the driver round trips still to come ([Some e]: that round trip fails
    with [e]; an exhausted list means no further failure), and standard
    output. *)
Record state : Type := State {
  db : store;
  io : list (option error);
  stdout : list log_line
}.

Definition set_db (d : store) (s : state) : state :=
  {| db := d; io := io s; stdout := stdout s |}.

Definition set_io (l : list (option error)) (s : state) : state :=
  {| db := db s; io := l; stdout := stdout s |}.

Definition print (l : log_line) (s : state) : state :=
  {| db := db s; io := io s; stdout := stdout s ++ [l] |}.

(** A Go function of the package: it runs on the process state and returns,
    fails or panics. *)
Definition M (A : Type) : Type := state -> outcome A * state.

Definition ret {A} (a : A) : M A := fun s => (Ok a, s).

Definition bind {A B} (m : M A) (k : A -> M B) : M B :=
  fun s =>
    match m s with
    | (Ok a, s') => k a s'
    | (Err e, s') => (Err e, s')
    | (Panic, s') => (Panic, s')
    end.

Notation "x <- m ;; k" := (bind m (fun x => k))
  (at level 62, m at next level, right associativity).

(** A call that touches no state. *)
Definition pure_call {A} (o : outcome A) : M A := fun s => (o, s).

(** A call that returns only an [error]. *)
Definition error_only (e : option error) : outcome unit :=
  match e with
  | None => Ok tt
  | Some e => Err e
  end.

(** [if err != nil { return fmt.Errorf("<context>: %w", err) }]. *)
Definition wrapped {A} (context : string) (m : M A) : M A :=
  fun s => let '(o, s') := m s in (wrap context o, s').

(** One round trip to the driver: fails when the environment says so. *)
Definition round_trip : M unit :=
  fun s =>
    match io s with
    | Some e :: rest => (Err e, set_io rest s)
    | None :: rest => (Ok tt, set_io rest s)
    | [] => (Ok tt, s)
    end.

(** [db.Exec(query, args...)]. *)
Definition db_Exec (h : option sqlDB) (q : stmt) : M unit :=
  match h with
  | None => pure_call Panic
  | Some _ =>
      _ <- round_trip ;;
      fun s =>
        match exec (db s) q with
        | Ok d => (Ok tt, set_db d s)
        | Err e => (Err e, s)
        | Panic => (Panic, s)
        end
  end.

(** [db.QueryRow("SELECT COUNT( * ) FROM <name>").Scan(&count)]. *)
Definition db_QueryRow_count (h : option sqlDB) (name : string) : M Z :=
  match h with
  | None => pure_call Panic
  | Some _ =>
      _ <- round_trip ;;
      fun s => (count (db s) name, s)
  end.

(** The callees that live outside [database.go]: the [os] and [xdb]
    packages, and [ensureRequestLogTable] of this package. *)
Record Env : Type := {
  os_UserHomeDir : outcome string;
  os_MkdirAll : string -> Z -> option error;
  xdb_Inits : list Config -> option error;
  xdb_DB : string -> outcome (option sqlDB);
  ensureRequestLogTable : M unit
}.

(** The elements of a path between its separators. *)
Fixpoint path_elements (path cur : string) : list string :=
  match path with
  | EmptyString => [cur]
  | String c rest =>
      if Ascii.eqb c "/"%char then cur :: path_elements rest ""
      else path_elements rest (cur ++ String c "")
  end.

(** One element in [filepath.Clean]'s scan; [out] holds the elements kept so
    far, last first.  Empty and "." elements are dropped; ".." removes the
    element before it, is kept at the start of a relative path, and is
    dropped at the root. *)
Definition clean_element (rooted : bool) (out : list string) (e : string) : list string :=
  if String.eqb e "" || String.eqb e "." then out
  else if String.eqb e ".." then
    match out with
    | last :: before =>
        if String.eqb last ".." then (if rooted then out else e :: out) else before
    | [] => if rooted then [] else [e]
    end
  else e :: out.

(** [filepath.Clean] (with "/" as the separator). *)
Definition filepath_Clean (path : string) : string :=
  match path with
  | EmptyString => "."
  | String c _ =>
      let rooted := Ascii.eqb c "/"%char in
      let out := rev (foldl (clean_element rooted) [] (path_elements path "")) in
      if rooted then "/" ++ String.concat "/" out
      else match out with
           | [] => "."
           | _ => String.concat "/" out
           end
  end.

(** [filepath.Join] of two elements: the elements from the first non-empty
    one on, joined by the separator and cleaned. *)
Definition filepath_Join (a b : string) : string :=
  if String.eqb a "" then (if String.eqb b "" then "" else filepath_Clean b)
  else filepath_Clean (a ++ "/" ++ b).

(** *** ensureBlacklistTables *)

Definition createAppSettingsSQL : stmt :=
  CreateTableIfNotExists "app_settings"
    {| sch_cols :=
         [ Column "id" INTEGER true false false VNull;
           Column "key" TEXT false true true VNull;
           Column "value" TEXT false false false VNull ];
       sch_unique := [] |}.

Definition createBlacklistSQL : stmt :=
  CreateTableIfNotExists "provider_blacklist"
    {| sch_cols :=
         [ Column "id" INTEGER true false false VNull;
           Column "platform" TEXT false true false VNull;
           Column "provider_name" TEXT false true false VNull;
           Column "failure_count" INTEGER false false false (VInt 0);
           Column "blacklisted_at" DATETIME false false false VNull;
           Column "blacklisted_until" DATETIME false false false VNull;
           Column "last_failure_at" DATETIME false false false VNull;
           Column "blacklist_level" INTEGER false false false (VInt 0);
           Column "last_recovered_at" DATETIME false false false VNull;
           Column "last_degrade_hour" INTEGER false false false (VInt 0);
           Column "last_failure_window_start" DATETIME false false false VNull;
           Column "auto_recovered" INTEGER false false false (VInt 0) ];
       sch_unique := [ ["platform"; "provider_name"] ] |}.

Definition defaultSettings : list (string * string) :=
  [ ("enable_blacklist", "true");
    ("blacklist_failure_threshold", "3");
    ("blacklist_duration_minutes", "30") ].

(** [INSERT OR IGNORE INTO app_settings (key, value) VALUES (?, ?)]. *)
Definition insertDefaultSQL (key value : string) : stmt :=
  Insert OrIgnore "app_settings" ["key"; "value"] [VText key; VText value].

(** The [for _, s := range defaultSettings] loop, leaving at the first
    error. *)
Fixpoint insertDefaults (h : option sqlDB) (l : list (string * string)) : M unit :=
  match l with
  | [] => ret tt
  | s :: rest =>
      _ <- wrapped ("插入默认设置 " ++ s.1 ++ " 失败") (db_Exec h (insertDefaultSQL s.1 s.2)) ;;
      insertDefaults h rest
  end.

Definition ensureBlacklistTables (env : Env) : M unit :=
  h <- wrapped "获取数据库连接失败" (pure_call (xdb_DB env "default")) ;;
  _ <- wrapped "创建 app_settings 表失败" (db_Exec h createAppSettingsSQL) ;;
  _ <- wrapped "创建 provider_blacklist 表失败" (db_Exec h createBlacklistSQL) ;;
  insertDefaults h defaultSettings.

(** *** InitDatabase *)

Definition dsnSuffix : string :=
  "app.db?cache=shared&mode=rwc&_busy_timeout=10000&_journal_mode=WAL".

(** Step 4 of [InitDatabase]: the query runs only when [xdb.DB] gave a
    non-nil handle and no error; its own error is printed, not returned. *)
Definition prewarm (env : Env) : M unit :=
  match xdb_DB env "default" with
  | Ok (Some h) =>
      fun s =>
        match db_QueryRow_count (Some h) "request_log" s with
        | (Ok n, s') => (Ok tt, print (PrewarmDone n) s')
        | (Err e, s') => (Ok tt, print (PrewarmFailed e) s')
        | (Panic, s') => (Panic, s')
        end
  | Ok None => ret tt
  | Err _ => ret tt
  | Panic => pure_call Panic
  end.

Definition InitDatabase (env : Env) : M unit :=
  home <- wrapped "获取用户目录失败" (pure_call (os_UserHomeDir env)) ;;
  let configDir := filepath_Join home ".code-switch" in
  _ <- wrapped "创建配置目录失败" (pure_call (error_only (os_MkdirAll env configDir 493))) ;;
  let dbPath := filepath_Join configDir dsnSuffix in
  _ <- wrapped "初始化数据库失败"
         (pure_call (error_only (xdb_Inits env
            [ {| Name := "default"; Driver := "sqlite"; DSN := dbPath |} ]))) ;;
  _ <- wrapped "初始化 request_log 表失败" (ensureRequestLogTable env) ;;
  _ <- wrapped "初始化黑名单表失败" (ensureBlacklistTables env) ;;
  _ <- prewarm env ;;
  ret tt.

(** *** Reading the tables *)

Definition app_settings_schema : schema :=
  match createAppSettingsSQL with
  | CreateTableIfNotExists _ s => s
  | _ => Schema [] []
  end.

Definition blacklist_schema : schema :=
  match createBlacklistSQL with
  | CreateTableIfNotExists _ s => s
  | _ => Schema [] []
  end.

(** [SELECT value FROM app_settings WHERE key = ?]: the value of the first
    row found, [None] when there is no such row (or no table). *)
Definition get_setting (d : store) (key : string) : option value :=
  match select d "app_settings" [("key", VText key)] with
  | Ok (r :: _) => Some (col r "value")
  | _ => None
  end.

End Database.

(** ** The blacklist core on the two tables *)

Module Blacklist.
Import Sql Database.

#[global] Instance outcome_ret : MRet outcome := fun _ a => Ok a.

#[global] Instance outcome_bind : MBind outcome :=
  fun _ _ k o =>
    match o with
    | Ok a => k a
    | Err e => Err e
    | Panic => Panic
    end.

#[global] Instance outcome_fmap : FMap outcome :=
  fun _ _ f o =>
    match o with
    | Ok a => Ok (f a)
    | Err e => Err e
    | Panic => Panic
    end.

(** *** Settings *)

(** Modelled from the spec: the settings provider (section 4.1) is not part
    of [database.go].  [BlacklistSettings] is the record of section 3. *)
Record BlacklistSettings : Type := {
  enabled : bool;
  failureThreshold : Z;
  blacklistDurationMinutes : Z
}.

Definition digit (a : ascii) : option Z :=
  let n := Z.of_N (N_of_ascii a) - 48 in
  if (0 <=? n) && (n <=? 9) then Some n else None.

Fixpoint parse_digits (s : string) (acc : Z) : option Z :=
  match s with
  | EmptyString => Some acc
  | String a rest =>
      match digit a with
      | Some d => parse_digits rest (10 * acc + d)
      | None => None
      end
  end.

(** Decimal integer text, with an optional leading minus sign. *)
Definition parse_int (s : string) : option Z :=
  match s with
  | EmptyString => None
  | String "-"%char EmptyString => None
  | String "-"%char rest => Z.opp <$> parse_digits rest 0
  | _ => parse_digits s 0
  end.

Definition int_setting (d : store) (key : string) (dflt : Z) : Z :=
  match get_setting d key with
  | Some (VText s) => default dflt (parse_int s)
  | _ => dflt
  end.

(** Modelled from the spec: [GetSettings] (section 4.1) read through to
    [app_settings]; a missing or unreadable key gives its default (true, 3,
    30).  The in-memory cache is left out: it is invalidated on every write,
    so it never differs from the table. *)
Definition GetSettings (d : store) : BlacklistSettings :=
  {| enabled :=
       match get_setting d "enable_blacklist" with
       | Some (VText "false") => false
       | Some (VText "true") => true
       | _ => true
       end;
     failureThreshold := int_setting d "blacklist_failure_threshold" 3;
     blacklistDurationMinutes := int_setting d "blacklist_duration_minutes" 30 |}.

(** *** Health records *)

(** Modelled from the spec: [ProviderHealthRecord] (section 3).  Timestamps
    are seconds since the epoch; the hour bucket is the number of whole hours
    since the epoch. *)
Record ProviderHealthRecord : Type := {
  platform : string;
  providerName : string;
  failureCount : Z;
  failureWindowStart : option Z;
  lastFailureAt : option Z;
  blacklistLevel : Z;
  blacklistedAt : option Z;
  blacklistedUntil : option Z;
  lastDegradeHour : Z;
  lastRecoveredAt : option Z;
  autoRecovered : bool
}.

#[global] Instance record_eq_dec : EqDecision ProviderHealthRecord.
Proof. solve_decision. Defined.

Definition healthy_record (p n : string) : ProviderHealthRecord :=
  {| platform := p; providerName := n;
     failureCount := 0; failureWindowStart := None; lastFailureAt := None;
     blacklistLevel := 0; blacklistedAt := None; blacklistedUntil := None;
     lastDegradeHour := 0; lastRecoveredAt := None; autoRecovered := false |}.

(** The persisted representation of section 6. *)
Definition as_text (v : value) : string :=
  match v with VText s => s | _ => "" end.

Definition as_time (v : value) : option Z :=
  match v with VInt z => Some z | _ => None end.

Definition as_flag (v : value) : bool :=
  match v with VInt 0 => false | VInt _ => true | _ => false end.

Definition of_time (t : option Z) : value :=
  match t with Some z => VInt z | None => VNull end.

Definition of_flag (b : bool) : value := VInt (if b then 1 else 0).

Definition decode (r : row) : ProviderHealthRecord :=
  {| platform := as_text (col r "platform");
     providerName := as_text (col r "provider_name");
     failureCount := as_int (col r "failure_count");
     failureWindowStart := as_time (col r "last_failure_window_start");
     lastFailureAt := as_time (col r "last_failure_at");
     blacklistLevel := as_int (col r "blacklist_level");
     blacklistedAt := as_time (col r "blacklisted_at");
     blacklistedUntil := as_time (col r "blacklisted_until");
     lastDegradeHour := as_int (col r "last_degrade_hour");
     lastRecoveredAt := as_time (col r "last_recovered_at");
     autoRecovered := as_flag (col r "auto_recovered") |}.

Definition encode (r : ProviderHealthRecord) : list (string * value) :=
  [ ("failure_count", VInt (failureCount r));
    ("last_failure_window_start", of_time (failureWindowStart r));
    ("last_failure_at", of_time (lastFailureAt r));
    ("blacklist_level", VInt (blacklistLevel r));
    ("blacklisted_at", of_time (blacklistedAt r));
    ("blacklisted_until", of_time (blacklistedUntil r));
    ("last_degrade_hour", VInt (lastDegradeHour r));
    ("last_recovered_at", of_time (lastRecoveredAt r));
    ("auto_recovered", of_flag (autoRecovered r)) ].

Definition key_cond (p n : string) : list (string * value) :=
  [ ("platform", VText p); ("provider_name", VText n) ].

(** *** BlacklistStore *)

(** The record stored for a provider, if any. *)
Definition load (d : store) (p n : string) : outcome (option ProviderHealthRecord) :=
  rows ← select d "provider_blacklist" (key_cond p n);
  Ok (decode <$> head rows).

(** Modelled from the spec: [GetOrCreate] (section 4.2): the existing record,
    or a freshly inserted one; the insert leaves a concurrent winner in place
    and the record is read again. *)
Definition GetOrCreate (p n : string) (d : store) : outcome (ProviderHealthRecord * store) :=
  found ← load d p n;
  match found with
  | Some r => Ok (r, d)
  | None =>
      d' ← exec d (Insert OrIgnore "provider_blacklist"
                     ["platform"; "provider_name"] [VText p; VText n]);
      again ← load d' p n;
      match again with
      | Some r => Ok (r, d')
      | None => Err (ErrMsg "record not found after insert")
      end
  end.

(** Modelled from the spec: [CompareAndSave] (section 4.2), with the full-row
    compare of section 9 as the version check: the record is written only
    when the stored one still is [expected]. *)
Definition CompareAndSave (r expected : ProviderHealthRecord) (d : store) : outcome (bool * store) :=
  current ← load d (platform r) (providerName r);
  if bool_decide (current = Some expected)
  then d' ← exec d (Update "provider_blacklist" (encode r)
                      (key_cond (platform r) (providerName r)));
       Ok (true, d')
  else Ok (false, d).

(** *** FailureTracker, EscalationPolicy, RecoveryEvaluator *)

Definition hour_bucket (now : Z) : Z := now / 3600.

Definition minutes (m : Z) : Z := m * 60.

(** Section 3: blacklisted until a time strictly in the future. *)
Definition currently_blacklisted (now : Z) (r : ProviderHealthRecord) : bool :=
  match blacklistedUntil r with
  | Some u => now <? u
  | None => false
  end.

Section Core.

(** The spec leaves these three open (section 9): the backoff factor of a
    level, the level cap and the number of retries after a write conflict. *)
Variable backoff : Z -> Z.
Variable maxLevel : Z.
Variable maxRetries : nat.

(** Modelled from the spec: steps 2 and 3 of [RecordFailure] (section 4.3). *)
Definition countFailure (s : BlacklistSettings) (now : Z) (r : ProviderHealthRecord)
  : ProviderHealthRecord :=
  let restart :=
    match failureWindowStart r with
    | None => true
    | Some w => minutes (blacklistDurationMinutes s) <? now - w
    end in
  {| platform := platform r; providerName := providerName r;
     failureCount := (if restart then 0 else failureCount r) + 1;
     failureWindowStart := if restart then Some now else failureWindowStart r;
     lastFailureAt := Some now;
     blacklistLevel := blacklistLevel r;
     blacklistedAt := blacklistedAt r; blacklistedUntil := blacklistedUntil r;
     lastDegradeHour := lastDegradeHour r;
     lastRecoveredAt := lastRecoveredAt r; autoRecovered := autoRecovered r |}.

(** Modelled from the spec: the escalation policy (section 4.4). *)
Definition escalate (s : BlacklistSettings) (now : Z) (r : ProviderHealthRecord)
  : ProviderHealthRecord :=
  let currentHour := hour_bucket now in
  if lastDegradeHour r =? currentHour then r
  else
    let newLevel := Z.min (blacklistLevel r + 1) maxLevel in
    let cooldown := minutes (blacklistDurationMinutes s * backoff newLevel) in
    {| platform := platform r; providerName := providerName r;
       failureCount := failureCount r;
       failureWindowStart := failureWindowStart r;
       lastFailureAt := lastFailureAt r;
       blacklistLevel := newLevel;
       blacklistedAt := if currently_blacklisted now r then blacklistedAt r else Some now;
       blacklistedUntil := Some (now + cooldown);
       lastDegradeHour := currentHour;
       lastRecoveredAt := lastRecoveredAt r;
       autoRecovered := false |}.

(** Steps 2 to 4 of [RecordFailure] on a loaded record. *)
Definition failed (s : BlacklistSettings) (now : Z) (r : ProviderHealthRecord)
  : ProviderHealthRecord :=
  let r1 := countFailure s now r in
  if (failureThreshold s <=? failureCount r1) && enabled s
  then escalate s now r1 else r1.

Fixpoint recordFailureLoop (attempts : nat) (now : Z) (p n : string) (d : store)
  : outcome store :=
  match attempts with
  | O => Err (ErrMsg "concurrent write conflict")
  | S k =>
      '(r, d1) ← GetOrCreate p n d;
      '(saved, d2) ← CompareAndSave (failed (GetSettings d1) now r) r d1;
      if saved : bool then Ok d2 else recordFailureLoop k now p n d2
  end.

(** Modelled from the spec: [RecordFailure] (section 4.3): load or create,
    count, escalate at the threshold, compare-and-save, and start over on a
    conflict, a bounded number of times. *)
Definition RecordFailure (now : Z) (p n : string) (d : store) : outcome store :=
  recordFailureLoop (S maxRetries) now p n d.

(** Modelled from the spec: [RecordSuccess] (section 4.3): ignored while the
    provider is blacklisted, advisory otherwise; no state change either
    way. *)
Definition RecordSuccess (now : Z) (p n : string) (d : store) : outcome store :=
  found ← load d p n;
  match found with
  | Some r => if currently_blacklisted now r then Ok d else Ok d
  | None => Ok d
  end.

(** The record after a lazy expiry at [now]. *)
Definition recovered (now : Z) (r : ProviderHealthRecord) : ProviderHealthRecord :=
  {| platform := platform r; providerName := providerName r;
     failureCount := failureCount r;
     failureWindowStart := failureWindowStart r;
     lastFailureAt := lastFailureAt r;
     blacklistLevel := blacklistLevel r;
     blacklistedAt := None; blacklistedUntil := None;
     lastDegradeHour := lastDegradeHour r;
     lastRecoveredAt := Some now;
     autoRecovered := true |}.

(** Modelled from the spec: [IsBlacklisted] (section 4.5), steps 1 to 5. *)
Definition IsBlacklisted (now : Z) (p n : string) (d : store) : outcome (bool * store) :=
  if negb (enabled (GetSettings d)) then Ok (false, d)
  else
    found ← load d p n;
    match found with
    | None => Ok (false, d)
    | Some r =>
        match blacklistedUntil r with
        | None => Ok (false, d)
        | Some u =>
            if u <=? now
            then '(saved, d') ← CompareAndSave (recovered now r) r d;
                 if saved : bool then Ok (false, d')
                 else Err (ErrMsg "concurrent write conflict")
            else Ok (true, d)
        end
    end.

(** *** Histories of calls *)

Inductive call : Type :=
| CallRecordFailure (now : Z) (p n : string)
| CallRecordSuccess (now : Z) (p n : string)
| CallIsBlacklisted (now : Z) (p n : string).

Definition call_time (c : call) : Z :=
  match c with
  | CallRecordFailure now _ _ | CallRecordSuccess now _ _ | CallIsBlacklisted now _ _ => now
  end.

Definition step (d : store) (c : call) : outcome store :=
  match c with
  | CallRecordFailure now p n => RecordFailure now p n d
  | CallRecordSuccess now p n => RecordSuccess now p n d
  | CallIsBlacklisted now p n => snd <$> IsBlacklisted now p n d
  end.

Fixpoint run (d : store) (cs : list call) : outcome store :=
  match cs with
  | [] => Ok d
  | c :: rest => d' ← step d c; run d' rest
  end.

End Core.

(** The record of a provider as a reader of the table sees it. *)
Definition record_of (d : store) (p n : string) : option ProviderHealthRecord :=
  match load d p n with
  | Ok found => found
  | _ => None
  end.

End Blacklist.

(** ** Predicates used in the statements *)

Module Props.
Import Sql Database Blacklist.

(** A table whose rows satisfy every constraint of its definition. *)
Definition table_ok (t : table) : Prop :=
  rows_unique (tbl_schema t) (tbl_rows t) = true ∧
  Forall (λ r, notnull_ok (tbl_schema t) r = true ∧ rowid_ok (tbl_schema t) r = true)
         (tbl_rows t).

(** The table a statement names. *)
Definition stmt_table (q : stmt) : string :=
  match q with
  | CreateTableIfNotExists name _ | Insert _ name _ _ | Update name _ _ => name
  end.

(** The row [INSERT OR IGNORE INTO app_settings (key, value)] builds. *)
Definition setting_row (t : table) (k v : string) : row :=
  <["id" := VInt (next_rowid t "id")]> (<["key" := VText k]> (<["value" := VText v]> ∅)).

Definition has_key (k : string) (r : row) : bool := bool_decide (col r "key" = VText k).

(** If [app_settings] is there, it is the table [database.go] defines. *)
Definition settings_table_ok (d : store) : Prop :=
  ∀ t, d !! "app_settings" = Some t → tbl_schema t = app_settings_schema.

(** The value [defaultSettings]-like list [l] gives to key [k] (the first
    entry counts). *)
Definition default_of (l : list (string * string)) (k : string) : option string :=
  snd <$> List.find (λ kv, String.eqb kv.1 k) l.

(** The row [INSERT INTO provider_blacklist (platform, provider_name)]
    builds. *)
Definition blacklist_row (t : table) (vp vn : value) : row :=
  <["id" := VInt (next_rowid t "id")]>
  (<["platform" := vp]>
  (<["provider_name" := vn]>
  (<["failure_count" := VInt 0]>
  (<["blacklisted_at" := VNull]>
  (<["blacklisted_until" := VNull]>
  (<["last_failure_at" := VNull]>
  (<["blacklist_level" := VInt 0]>
  (<["last_recovered_at" := VNull]>
  (<["last_degrade_hour" := VInt 0]>
  (<["last_failure_window_start" := VNull]>
  (<["auto_recovered" := VInt 0]> ∅))))))))))).

(** [INSERT [OR IGNORE] INTO provider_blacklist (platform, provider_name)
    VALUES (?, ?)]. *)
Definition insertRecordSQL (oc : on_conflict) (p n : string) : stmt :=
  Insert oc "provider_blacklist" ["platform"; "provider_name"] [VText p; VText n].

(** [provider_blacklist] is there, is the table [database.go] defines, and
    satisfies its constraints. *)
Definition blacklist_ok (d : store) : Prop :=
  ∃ t, d !! "provider_blacklist" = Some t ∧
       tbl_schema t = blacklist_schema ∧ table_ok t.

(** Two rows with the same rowid, platform and provider name. *)
Definition same_keys (r1 r2 : row) : Prop :=
  col r1 "id" = col r2 "id" ∧ col r1 "platform" = col r2 "platform" ∧
  col r1 "provider_name" = col r2 "provider_name".

(** What [UPDATE provider_blacklist SET <record> WHERE platform = p AND
    provider_name = n] does to one row. *)
Definition save_row (rec : ProviderHealthRecord) (r : row) : row :=
  if matches (key_cond (platform rec) (providerName rec)) r
  then assign (encode rec) r else r.

Definition saveSQL (rec : ProviderHealthRecord) : stmt :=
  Update "provider_blacklist" (encode rec) (key_cond (platform rec) (providerName rec)).

(** The cooldown of a record has run out at [now]. *)
Definition expired (now : Z) (r : ProviderHealthRecord) : bool :=
  match blacklistedUntil r with
  | Some u => u <=? now
  | None => false
  end.

(** What one call does to the record of provider [(p, n)]: the per-provider
    state machine of the core. *)
Definition next_record (backoff : Z → Z) (maxLevel : Z) (s : BlacklistSettings)
    (p n : string) (o : option ProviderHealthRecord) (c : call)
  : option ProviderHealthRecord :=
  match c with
  | CallRecordFailure now p' n' =>
      if bool_decide ((p', n') = (p, n))
      then Some (failed backoff maxLevel s now (default (healthy_record p n) o))
      else o
  | CallRecordSuccess _ _ _ => o
  | CallIsBlacklisted now p' n' =>
      if bool_decide ((p', n') = (p, n))
      then (λ r, if enabled s && expired now r then recovered now r else r) <$> o
      else o
  end.


(** The level of a provider: that of its record, 0 when it has none. *)
Definition level_of (d : store) (p n : string) : Z :=
  match record_of d p n with
  | Some r => blacklistLevel r
  | None => 0
  end.

(** The database files the program can produce: [ensureBlacklistTables]
    creates [provider_blacklist] (or finds the one an earlier run left), and
    from there on any statement and any call of the core may follow. *)
Inductive reachable : store → Prop :=
| reachable_boot env s s' :
    db s !! "provider_blacklist" = None →
    ensureBlacklistTables env s = (Ok tt, s') →
    reachable (db s')
| reachable_reboot env s s' :
    reachable (db s) →
    ensureBlacklistTables env s = (Ok tt, s') →
    reachable (db s')
| reachable_exec d q d' :
    reachable d → exec d q = Ok d' → reachable d'
| reachable_call backoff maxLevel maxRetries d c d' :
    reachable d → step backoff maxLevel maxRetries d c = Ok d' → reachable d'.

(** Within hour [h] a record is either at the level it entered the hour
    with, or one escalation above it with the hour guard closed. *)
Definition within_hour (h l0 : Z) (o : option ProviderHealthRecord) : Prop :=
  from_option blacklistLevel 0 o = l0 ∨
  ∃ r, o = Some r ∧ blacklistLevel r ≤ l0 + 1 ∧ lastDegradeHour r = h.

(** No driver round trip fails from here on. *)
Definition no_fault (s : state) : Prop := Forall (λ o, o = None) (io s).

(** Two states of a table with the same definition and the same rows; the
    AUTOINCREMENT counter of the second is not behind that of the first. *)
Definition same_contents (t t' : table) : Prop :=
  tbl_schema t' = tbl_schema t ∧ tbl_rows t' = tbl_rows t ∧ tbl_seq t ≤ tbl_seq t'.

(** From [d] to [d'] app_settings kept its contents, and every other table,
    its AUTOINCREMENT counter included, is exactly as it was. *)
Definition same_data (d d' : store) : Prop :=
  (∀ name, name ≠ "app_settings" → d' !! name = d !! name) ∧
  ∃ t t', d !! "app_settings" = Some t ∧ d' !! "app_settings" = Some t' ∧
          same_contents t t'.

(** [ensureBlacklistTables] finds nothing to create or insert in [d]: both
    tables exist, app_settings is the table the code defines, and it holds
    every default key. *)
Definition initialised (d : store) : Prop :=
  (∃ t, d !! "app_settings" = Some t ∧ tbl_schema t = app_settings_schema) ∧
  is_Some (d !! "provider_blacklist") ∧
  ∀ k v, (k, v) ∈ defaultSettings → is_Some (get_setting d k).

(** The largest rowid of SQLite, 2^63 - 1. *)
Definition max_rowid : Z := 9223372036854775807.

(** The largest rowid table [name] of [d] holds or has handed out (0 when
    the table is missing or never had a row).  The rowid column of both
    tables of [database.go] is [id]. *)
Definition rowid_top (d : store) (name : string) : Z :=
  match d !! name with
  | Some t => Z.max (tbl_seq t) (max_of "id" (tbl_rows t))
  | None => 0
  end.

(** Table [name] of [d] is at least [k] rowids away from the largest one.
    Each INSERT that leaves the id to AUTOINCREMENT uses up one rowid,
    whether the row is stored or ignored, and SQLite refuses the INSERT when
    none is left; the model has no such limit, so a statement about SQLite
    that promises a successful INSERT asks for the room it needs. *)
Definition rowid_room (k : Z) (d : store) (name : string) : Prop :=
  rowid_top d name + k ≤ max_rowid.

Definition configDir (home : string) : string := filepath_Join home ".code-switch".

Definition poolConfig (home : string) : list Config :=
  [ {| Name := "default"; Driver := "sqlite";
       DSN := filepath_Join (configDir home) dsnSuffix |} ].

(** One of the five steps of [InitDatabase] returns an error (each step is
    reached only when the ones before it succeeded). *)
Inductive failing_step (env : Env) (s : state) : Prop :=
| fail_home :
    is_err (os_UserHomeDir env) = true → failing_step env s
| fail_mkdir home :
    os_UserHomeDir env = Ok home →
    is_Some (os_MkdirAll env (configDir home) 493) → failing_step env s
| fail_pool home :
    os_UserHomeDir env = Ok home →
    os_MkdirAll env (configDir home) 493 = None →
    is_Some (xdb_Inits env (poolConfig home)) → failing_step env s
| fail_request_log home :
    os_UserHomeDir env = Ok home →
    os_MkdirAll env (configDir home) 493 = None →
    xdb_Inits env (poolConfig home) = None →
    is_err (ensureRequestLogTable env s).1 = true → failing_step env s
| fail_blacklist home s1 :
    os_UserHomeDir env = Ok home →
    os_MkdirAll env (configDir home) 493 = None →
    xdb_Inits env (poolConfig home) = None →
    ensureRequestLogTable env s = (Ok tt, s1) →
    is_err (ensureBlacklistTables env s1).1 = true → failing_step env s.

End Props.

(** ** Sample environments and stores *)

Module Sample.
Import Sql Database Blacklist Props.

(** An environment in which every outside call succeeds. *)
Definition env : Env :=
  {| os_UserHomeDir := Ok "/home/dev";
     os_MkdirAll := λ _ _, None;
     xdb_Inits := λ _, None;
     xdb_DB := λ name, Ok (Some (Conn name));
     ensureRequestLogTable :=
       db_Exec (Some (Conn "default"))
         (CreateTableIfNotExists "request_log"
            {| sch_cols := [Column "id" INTEGER true false false VNull];
               sch_unique := [] |}) |}.

(** A process that starts on an empty database file. *)
Definition fresh : state := {| db := ∅; io := []; stdout := [] |}.

Definition db_of (o : outcome store) : store :=
  match o with Ok d => d | _ => ∅ end.

(** A database file in which the user has switched blacklisting off. *)
Definition tuned_db : store :=
  db_of (d ← exec ∅ createAppSettingsSQL;
         exec d (insertDefaultSQL "enable_blacklist" "false")).

Definition tuned : state := {| db := tuned_db; io := []; stdout := [] |}.

(** An environment in which [ensureRequestLogTable] creates nothing, so that
    the prewarm query of [InitDatabase] fails. *)
Definition env_no_log : Env :=
  {| os_UserHomeDir := Ok "/home/dev";
     os_MkdirAll := λ _ _, None;
     xdb_Inits := λ _, None;
     xdb_DB := λ name, Ok (Some (Conn name));
     ensureRequestLogTable := ret tt |}.

(** The database file after [ensureBlacklistTables] on an empty one. *)
Definition ready_db : store := db (ensureBlacklistTables env fresh).2.


(** The empty [provider_blacklist] table. *)
Definition empty_blacklist : table :=
  {| tbl_schema := blacklist_schema; tbl_rows := []; tbl_seq := 0 |}.

(** [ready_db] after a first record for provider kimi of platform claude. *)
Definition one_record_db : store :=
  <["provider_blacklist" :=
      {| tbl_schema := blacklist_schema;
         tbl_rows := [blacklist_row empty_blacklist (VText "claude") (VText "kimi")];
         tbl_seq := 1 |}]> ready_db.


(** A policy: doubling backoff, five levels, three retries. *)
Definition backoff (level : Z) : Z := 2 ^ (level - 1).
Definition maxLevel : Z := 5.
Definition maxRetries : nat := 3.

(** Hour 500000 since the epoch, and times within it. *)
Definition t0 : Z := 500000 * 3600.


(** Three failures cross the default threshold; four more follow within the
    same hour. *)
Definition many_failures : list call :=
  [ CallRecordFailure (t0 + 60) "claude" "kimi";
    CallRecordFailure (t0 + 120) "claude" "kimi";
    CallRecordFailure (t0 + 180) "claude" "kimi";
    CallIsBlacklisted (t0 + 200) "claude" "kimi";
    CallRecordFailure (t0 + 240) "claude" "kimi";
    CallRecordFailure (t0 + 300) "claude" "kimi";
    CallRecordFailure (t0 + 360) "claude" "kimi";
    CallRecordFailure (t0 + 420) "claude" "kimi" ].

(** [ready_db] after three failures of provider kimi: blacklisted at level 1
    until [t0 + 180 + 1800]. *)
Definition blacklisted_db : store :=
  db_of (run backoff maxLevel maxRetries ready_db
           [ CallRecordFailure (t0 + 60) "claude" "kimi";
             CallRecordFailure (t0 + 120) "claude" "kimi";
             CallRecordFailure (t0 + 180) "claude" "kimi" ]).

Definition blacklisted_record : ProviderHealthRecord :=
  {| platform := "claude"; providerName := "kimi";
     failureCount := 3; failureWindowStart := Some (t0 + 60);
     lastFailureAt := Some (t0 + 180);
     blacklistLevel := 1;
     blacklistedAt := Some (t0 + 180); blacklistedUntil := Some (t0 + 1980);
     lastDegradeHour := 500000;
     lastRecoveredAt := None; autoRecovered := false |}.

(** [blacklisted_db] after the user has switched blacklisting off. *)
Definition switched_off_db : store :=
  db_of (exec blacklisted_db
           (Update "app_settings" [("value", VText "false")]
                   [("key", VText "enable_blacklist")])).

End Sample.

(** ** Predicates for the bootstrap as a whole *)

Module BootProps.
Import Sql Database Props.

(** Every state a computation can end in is related to the one it started
    in, whatever the outcome. *)
Definition moves {A} (R : state → state → Prop) (m : M A) : Prop :=
  ∀ s, R s (m s).2.

(** From [d] to [d'] nothing changed outside the two blacklist tables, and a
    [provider_blacklist] that was there is still the same. *)
Definition only_blacklist_tables (d d' : store) : Prop :=
  (∀ name, name ≠ "app_settings" → name ≠ "provider_blacklist" →
           d' !! name = d !! name) ∧
  (∀ t, d !! "provider_blacklist" = Some t → d' !! "provider_blacklist" = Some t).

(** From [d] to [d'] every table kept its definition and its rows, in place;
    rows were at most appended. *)
Definition extends (d d' : store) : Prop :=
  ∀ name t, d !! name = Some t →
    ∃ t', d' !! name = Some t' ∧ tbl_schema t' = tbl_schema t ∧
          tbl_rows t `prefix_of` tbl_rows t'.

(** The context [ensureBlacklistTables] wraps around a failed insert of the
    default for [key]. *)
Definition insert_context (key : string) : string :=
  "插入默认设置 " ++ key ++ " 失败".

(** From [d] to [d'] each setting kept its value, or was missing and now is
    its default. *)
Definition seeded (d d' : store) : Prop :=
  ∀ k, get_setting d' k = get_setting d k ∨
       (get_setting d k = None ∧
        ∃ v, default_of defaultSettings k = Some v ∧ get_setting d' k = Some (VText v)).

(** [app_settings] is there, is the table [database.go] defines, and
    satisfies its constraints. *)
Definition settings_ok (d : store) : Prop :=
  ∃ t, d !! "app_settings" = Some t ∧
       tbl_schema t = app_settings_schema ∧ table_ok t.

(** From [s] to [s'] app_settings stayed absent or the table the code
    defines, and at most [n] of its rowids were used up. *)
Definition uses_rowids (n : Z) (s s' : state) : Prop :=
  settings_table_ok (db s) →
  settings_table_ok (db s') ∧
  rowid_top (db s') "app_settings" ≤ rowid_top (db s) "app_settings" + n.

(** The key and the value a row of app_settings holds. *)
Definition setting_of (r : row) : value * value := (col r "key", col r "value").

(** A sequence of statements, stopping at the first that fails. *)
Fixpoint run_stmts (d : store) (qs : list stmt) : outcome store :=
  match qs with
  | [] => Ok d
  | q :: rest =>
      match exec d q with
      | Ok d' => run_stmts d' rest
      | Err e => Err e
      | Panic => Panic
      end
  end.

(** The rows of a table of the store (none when the table is missing). *)
Definition rows_of (d : store) (name : string) : list row :=
  match d !! name with
  | Some t => tbl_rows t
  | None => []
  end.

(** The default keys that have no row in [d]. *)
Definition missing_defaults (d : store) : list (string * string) :=
  List.filter (λ kv, bool_decide (get_setting d kv.1 = None)) defaultSettings.

(** Statements a user of the store might run on app_settings: a duplicate
    of a default key, a new key, and a change of value. *)
Definition settings_edits : list stmt :=
  [ Insert OrIgnore "app_settings" ["key"; "value"] [VText "enable_blacklist"; VText "false"];
    Insert OrAbort "app_settings" ["key"; "value"] [VText "theme"; VText "dark"];
    Update "app_settings" [("value", VText "5")]
           [("key", VText "blacklist_failure_threshold")] ].

(** A process on an empty database file whose fourth driver round trip (the
    second default insert) fails. *)
Definition interrupted : state :=
  {| db := ∅;
     io := [None; None; None; Some (ErrMsg "disk I/O error")];
     stdout := [] |}.

(** The process restarted on the file the interrupted run left behind. *)
Definition restarted : state :=
  {| db := db (ensureBlacklistTables Sample.env interrupted).2;
     io := [];
     stdout := [] |}.

(** A database file whose app_settings table comes from elsewhere: it has a
    name column where this code expects key and value. *)
Definition legacy : state :=
  {| db := {[ "app_settings" :=
                {| tbl_schema :=
                     {| sch_cols := [ Column "id" INTEGER true false false VNull;
                                      Column "name" TEXT false true true VNull ];
                        sch_unique := [] |};
                   tbl_rows := [];
                   tbl_seq := 0 |} ]};
     io := [];
     stdout := [] |}.

End BootProps.

(** ** The store keeps its constraints *)

Module SqlFacts.
Import Sql Props.

Lemma agree_on_sym cs r1 r2 : agree_on cs r1 r2 = agree_on cs r2 r1.
Proof.
  unfold agree_on. induction cs as [|c cs IH]; simpl; [done|]. rewrite IH. f_equal.
  destruct (decide (col r1 c = col r2 c)) as [E|E].
  - rewrite E, !bool_decide_eq_true_2; done.
  - rewrite !bool_decide_eq_false_2 by congruence. by rewrite !andb_false_r.
Qed.

Lemma collides_sym s r1 r2 : collides s r1 r2 = collides s r2 r1.
Proof.
  unfold collides. induction (unique_sets s) as [|cs l IH]; simpl; [done|].
  by rewrite IH, agree_on_sym.
Qed.

Lemma rows_unique_snoc s rows r :
  rows_unique s (rows ++ [r]) = rows_unique s rows && negb (conflicts s r rows).
Proof.
  induction rows as [|r0 rows IH]; simpl; [done|].
  rewrite IH. unfold conflicts at 1. rewrite existsb_app. simpl.
  rewrite orb_false_r, (collides_sym s r r0). fold (conflicts s r0 rows).
  destruct (conflicts s r0 rows), (collides s r0 r), (rows_unique s rows),
    (conflicts s r rows); done.
Qed.

Lemma insert_into_ok oc t cols vals t' :
  insert_into oc t cols vals = Ok t' →
  tbl_schema t' = tbl_schema t ∧ (table_ok t → table_ok t').
Proof.
  unfold insert_into. intros H.
  destruct (negb (length cols =? length vals)%nat); [done|].
  destruct (negb (known_cols _ _)); [done|].
  destruct (negb (rowid_ok _ _)) eqn:Hid; [done|].
  destruct (notnull_ok _ _ && negb (conflicts _ _ _)) eqn:Hc.
  - inversion H; subst; clear H. simpl. split; [done|].
    apply andb_prop in Hc as [Hnn Hcf]. apply negb_false_iff in Hid.
    intros [Hu Hall]. split; simpl.
    + by rewrite rows_unique_snoc, Hu, Hcf.
    + apply Forall_app. split; [done|]. by repeat constructor.
  - destruct oc; [done|]. by inversion H; subst.
Qed.

Lemma update_table_ok t sets cond t' :
  update_table t sets cond = Ok t' → tbl_schema t' = tbl_schema t ∧ table_ok t'.
Proof.
  unfold update_table. intros H.
  destruct (negb (known_cols _ _ && known_cols _ _)); [done|].
  destruct (negb (forallb _ _)) eqn:Hid; [done|].
  destruct (forallb _ _ && rows_unique _ _) eqn:Hc; [|done].
  inversion H; subst; clear H. simpl. split; [done|].
  apply andb_prop in Hc as [Hnn Hu]. apply negb_false_iff in Hid.
  split; [done|]. simpl. apply Forall_forall. intros r Hr%list_elem_of_In.
  rewrite forallb_forall in Hnn, Hid. auto.
Qed.

(** A statement leaves every table it does not name alone, keeps the
    definition of every existing table, and keeps the constraints. *)
Lemma exec_other d q d' n :
  exec d q = Ok d' → n ≠ stmt_table q → d' !! n = d !! n.
Proof.
  destruct q as [name s|oc name cols vals|name sets cond]; simpl; intros H Hn.
  - destruct (d !! name); inversion H; subst; [done|]. by rewrite lookup_insert_ne.
  - destruct (d !! name) as [t|]; [|done].
    destruct (insert_into _ _ _ _); inversion H; subst. by rewrite lookup_insert_ne.
  - destruct (d !! name) as [t|]; [|done].
    destruct (update_table _ _ _); inversion H; subst. by rewrite lookup_insert_ne.
Qed.

Lemma exec_table d q d' n t :
  exec d q = Ok d' → d !! n = Some t →
  ∃ t', d' !! n = Some t' ∧ tbl_schema t' = tbl_schema t ∧ (table_ok t → table_ok t').
Proof.
  intros H Ht. destruct (decide (n = stmt_table q)) as [->|Hn].
  2: { exists t. by rewrite (exec_other _ _ _ _ H Hn). }
  destruct q as [name s|oc name cols vals|name sets cond]; simpl in *; rewrite Ht in H.
  - inversion H; subst. eauto.
  - destruct (insert_into _ _ _ _) as [t'| |] eqn:E; inversion H; subst.
    exists t'. rewrite lookup_insert_eq. split; [done|]. by apply insert_into_ok in E.
  - destruct (update_table _ _ _) as [t'| |] eqn:E; inversion H; subst.
    exists t'. rewrite lookup_insert_eq. split; [done|].
    apply update_table_ok in E as [? ?]. auto.
Qed.

Lemma exec_no_panic d q : exec d q ≠ Panic.
Proof.
  destruct q as [name s|oc name cols vals|name sets cond]; simpl.
  - by destruct (d !! name).
  - destruct (d !! name) as [t|]; [|done].
    assert (insert_into oc t cols vals ≠ Panic) as Hn.
    { unfold insert_into. repeat case_match; done. }
    by destruct (insert_into _ _ _ _).
  - destruct (d !! name) as [t|]; [|done].
    assert (update_table t sets cond ≠ Panic) as Hn.
    { unfold update_table. repeat case_match; done. }
    by destruct (update_table _ _ _).
Qed.

End SqlFacts.
Module DatabaseFacts.
Import Sql Database Blacklist Props BootProps SqlFacts.

(** ** Running the monad *)

Lemma bind_ok {A B} (m : M A) (k : A → M B) s b s' :
  bind m k s = (Ok b, s') → ∃ a s1, m s = (Ok a, s1) ∧ k a s1 = (Ok b, s').
Proof.
  unfold bind. destruct (m s) as [[a|e|] s1]; intros H; try discriminate. eauto.
Qed.

Lemma wrapped_ok {A} c (m : M A) s a s' :
  wrapped c m s = (Ok a, s') → m s = (Ok a, s').
Proof.
  unfold wrapped. destruct (m s) as [[a0|e|] s1]; simpl; intros H; congruence.
Qed.

Lemma round_trip_db s : db (round_trip s).2 = db s ∧ stdout (round_trip s).2 = stdout s.
Proof. unfold round_trip. destruct (io s) as [|[e|] rest]; done. Qed.

Lemma db_Exec_ok h q s s' :
  db_Exec h q s = (Ok tt, s') → exec (db s) q = Ok (db s') ∧ stdout s' = stdout s.
Proof.
  destruct h as [c|]; [|discriminate]. unfold db_Exec.
  intros (u & s1 & H1 & H2)%bind_ok.
  pose proof (round_trip_db s) as [Hd Ho]. rewrite H1 in Hd, Ho. simpl in Hd, Ho.
  rewrite Hd in H2. destruct (exec (db s) q) as [d|e|]; inversion H2; subst. done.
Qed.

(** Whatever happens, [db.Exec] leaves the file as it was or as the statement
    made it. *)
Lemma db_Exec_db h q s :
  db (db_Exec h q s).2 = db s ∨ exec (db s) q = Ok (db (db_Exec h q s).2).
Proof.
  destruct h as [c|]; [|by left]. unfold db_Exec, bind.
  pose proof (round_trip_db s) as [Hd _].
  destruct (round_trip s) as [[[]|e|] s1]; simpl in *; auto.
  rewrite Hd. destruct (exec (db s) q); simpl; auto.
Qed.

Lemma db_Exec_no_fault c q s :
  Forall (λ o, o = None) (io s) →
  ∃ s', db_Exec (Some c) q s
        = (match exec (db s) q with Ok _ => Ok tt | Err e => Err e | Panic => Panic end, s')
        ∧ Forall (λ o, o = None) (io s') ∧ (db s' = db s ∨ exec (db s) q = Ok (db s')).
Proof.
  intros Hio. unfold db_Exec, bind, round_trip.
  destruct (io s) as [|[e|] rest] eqn:E.
  - destruct (exec (db s) q) eqn:Eq; eexists; (split; [reflexivity|]);
      simpl; rewrite ?E; split; auto.
  - inversion Hio; subst. discriminate.
  - inversion Hio; subst. simpl.
    destruct (exec (db s) q) eqn:Eq; eexists; (split; [reflexivity|]); simpl; split; auto.
Qed.


(** ** The default settings *)

Lemma max_of_ge c (rows : list row) r : r ∈ rows → as_int (col r c) ≤ max_of c rows.
Proof. induction 1 as [r rows|r r' rows _ IH]; simpl; lia. Qed.

Lemma next_rowid_fresh t c r : r ∈ tbl_rows t → col r c ≠ VInt (next_rowid t c).
Proof.
  intros Hr%(max_of_ge c) E. rewrite E in Hr. unfold next_rowid in Hr. simpl in Hr. lia.
Qed.

Lemma build_row_setting t k v :
  tbl_schema t = app_settings_schema →
  build_row t (list_to_map (zip ["key"; "value"] [VText k; VText v])) = setting_row t k v.
Proof.
  intros Hs. unfold build_row. rewrite Hs. cbn. by rewrite !lookup_insert_ne by done.
Qed.

Lemma setting_row_id t k v : col (setting_row t k v) "id" = VInt (next_rowid t "id").
Proof. unfold col, setting_row. by rewrite lookup_insert_eq. Qed.

Lemma setting_row_key t k v : col (setting_row t k v) "key" = VText k.
Proof. unfold col, setting_row. rewrite lookup_insert_ne by done. by rewrite lookup_insert_eq. Qed.

Lemma setting_row_value t k v : col (setting_row t k v) "value" = VText v.
Proof. unfold col, setting_row. rewrite !lookup_insert_ne by done. by rewrite lookup_insert_eq. Qed.

Lemma conflicts_setting t k v :
  tbl_schema t = app_settings_schema →
  conflicts (tbl_schema t) (setting_row t k v) (tbl_rows t) = existsb (has_key k) (tbl_rows t).
Proof.
  intros Hs. rewrite Hs. unfold conflicts.
  assert (∀ r0, r0 ∈ tbl_rows t →
            collides app_settings_schema (setting_row t k v) r0 = has_key k r0) as Hext.
  { intros r0 Hr0. cbn. unfold has_key.
    pose proof (next_rowid_fresh t "id" r0 Hr0) as Hfresh.
    rewrite setting_row_id, setting_row_key. simpl.
    rewrite (bool_decide_eq_false_2 (VInt _ = _)) by congruence.
    rewrite !andb_true_r, orb_false_r. simpl. apply bool_decide_ext. split; congruence. }
  induction (tbl_rows t) as [|r0 rows IH]; [done|]. simpl.
  rewrite Hext by left. f_equal. apply IH. intros; apply Hext. by right.
Qed.

Lemma insert_default_exec d t k v :
  d !! "app_settings" = Some t → tbl_schema t = app_settings_schema →
  exec d (insertDefaultSQL k v) =
    Ok (<["app_settings" :=
            {| tbl_schema := tbl_schema t;
               tbl_rows := if existsb (has_key k) (tbl_rows t) then tbl_rows t
                           else tbl_rows t ++ [setting_row t k v];
               tbl_seq := Z.max (tbl_seq t) (Z.max (next_rowid t "id") 0) |}]> d).
Proof.
  intros Ht Hs. unfold insertDefaultSQL, exec. rewrite Ht. unfold insert_into.
  rewrite build_row_setting by done. rewrite conflicts_setting by done.
  rewrite Hs. change (negb (Nat.eqb _ _)) with false. cbv iota.
  change (negb (known_cols _ _)) with false. cbv iota.
  assert (rowid_ok app_settings_schema (setting_row t k v) = true) as ->
    by (cbn; by rewrite setting_row_id).
  assert (notnull_ok app_settings_schema (setting_row t k v) = true) as ->
    by (cbn; by rewrite setting_row_key).
  assert (row_seq app_settings_schema (setting_row t k v) = Z.max (next_rowid t "id") 0) as ->
    by (cbn; by rewrite setting_row_id).
  cbn [negb andb]. by destruct (existsb (has_key k) (tbl_rows t)).
Qed.

(** [get_setting] in terms of the rows of the table. *)
Lemma get_setting_rows d t k :
  d !! "app_settings" = Some t →
  get_setting d k = (λ r, col r "value") <$> head (List.filter (has_key k) (tbl_rows t)).
Proof.
  intros Ht. unfold get_setting, select. rewrite Ht.
  assert (∀ r, matches [("key", VText k)] r = has_key k r) as Hext
    by (intros r; unfold matches, has_key; simpl; by rewrite andb_true_r).
  rewrite (List.filter_ext _ _ Hext). by destruct (List.filter _ _).
Qed.

Lemma get_setting_no_table d k : d !! "app_settings" = None → get_setting d k = None.
Proof. intros Ht. unfold get_setting, select. by rewrite Ht. Qed.

Lemma filter_nil_existsb {A} (f : A → bool) l : existsb f l = false → List.filter f l = [].
Proof.
  induction l as [|a l IH]; simpl; [done|].
  intros [-> Hl]%orb_false_elim. auto.
Qed.

Lemma filter_head_existsb {A} (f : A → bool) l : existsb f l = true → is_Some (head (List.filter f l)).
Proof.
  induction l as [|a l IH]; simpl; [done|].
  destruct (f a); simpl; eauto.
Qed.

(** One [INSERT OR IGNORE] of a default: it always succeeds, keeps the schema,
    gives the key its default unless the key was there, and touches no other
    key; the rows stay as they are when the key was there, and the sequence
    never goes back. *)
Lemma insert_default_spec d t k v :
  d !! "app_settings" = Some t → tbl_schema t = app_settings_schema →
  ∃ d' t',
    exec d (insertDefaultSQL k v) = Ok d' ∧
    d' !! "app_settings" = Some t' ∧ tbl_schema t' = app_settings_schema ∧
    (∀ n, n ≠ "app_settings" → d' !! n = d !! n) ∧
    get_setting d' k = Some (default (VText v) (get_setting d k)) ∧
    (∀ k', k' ≠ k → get_setting d' k' = get_setting d k') ∧
    (is_Some (get_setting d k) → tbl_rows t' = tbl_rows t) ∧
    (get_setting d k = None → tbl_rows t' = (tbl_rows t ++ [setting_row t k v])%list) ∧
    tbl_seq t ≤ tbl_seq t'.
Proof.
  intros Ht Hs. rewrite (insert_default_exec d t k v Ht Hs).
  eexists _, _. split; [done|]. rewrite lookup_insert_eq. split; [done|].
  split; [done|]. split; [by intros; rewrite lookup_insert_ne|].
  pose proof (get_setting_rows d t k Ht) as Hk.
  cbn [tbl_rows tbl_seq].
  destruct (existsb (has_key k) (tbl_rows t)) eqn:E.
  - destruct (filter_head_existsb _ _ E) as [r Hr]. rewrite Hr in Hk. simpl in Hk.
    split; [|split; [|split; [|split; [|lia]]]].
    + erewrite get_setting_rows by apply lookup_insert_eq. simpl. by rewrite Hr, Hk.
    + intros k' _. erewrite !get_setting_rows by (apply lookup_insert_eq || apply Ht). done.
    + done.
    + intros Hn. by rewrite Hk in Hn.
  - rewrite (filter_nil_existsb _ _ E) in Hk. simpl in Hk.
    split; [|split; [|split; [|split; [|lia]]]].
    + erewrite get_setting_rows by apply lookup_insert_eq. simpl.
      rewrite List.filter_app. simpl. rewrite (filter_nil_existsb _ _ E). simpl.
      unfold has_key at 1. rewrite setting_row_key, bool_decide_eq_true_2 by done.
      simpl. by rewrite setting_row_value, Hk.
    + intros k' Hk'. erewrite !get_setting_rows by (apply lookup_insert_eq || apply Ht).
      simpl. rewrite List.filter_app. simpl. unfold has_key at 2.
      rewrite setting_row_key, bool_decide_eq_false_2 by congruence.
      by rewrite app_nil_r.
    + rewrite Hk. by intros [? ?].
    + done.
Qed.

Lemma get_setting_ext d d' k :
  d' !! "app_settings" = d !! "app_settings" → get_setting d' k = get_setting d k.
Proof. unfold get_setting, select. by intros ->. Qed.

Lemma create_settings_spec d d' :
  settings_table_ok d → exec d createAppSettingsSQL = Ok d' →
  (∃ t, d' !! "app_settings" = Some t ∧ tbl_schema t = app_settings_schema) ∧
  (∀ k, get_setting d' k = get_setting d k) ∧
  (∀ n, n ≠ "app_settings" → d' !! n = d !! n).
Proof.
  intros Hok H. split; [|split].
  - simpl in H. destruct (d !! "app_settings") as [t|] eqn:Ht; inversion H; subst.
    + exists t. auto.
    + eexists. by rewrite lookup_insert_eq.
  - intros k. simpl in H. destruct (d !! "app_settings") as [t|] eqn:Ht; inversion H; subst.
    + done.
    + rewrite (get_setting_no_table d k Ht).
      by erewrite get_setting_rows by apply lookup_insert_eq.
  - intros n Hn. by apply (exec_other _ _ _ _ H).
Qed.

Lemma insertDefaults_spec l h s s' :
  insertDefaults h l s = (Ok tt, s') →
  (∃ t, db s !! "app_settings" = Some t ∧ tbl_schema t = app_settings_schema) →
  (∃ t', db s' !! "app_settings" = Some t' ∧ tbl_schema t' = app_settings_schema) ∧
  (∀ n, n ≠ "app_settings" → db s' !! n = db s !! n) ∧
  ∀ k, get_setting (db s') k =
       match default_of l k with
       | Some v => Some (default (VText v) (get_setting (db s) k))
       | None => get_setting (db s) k
       end.
Proof.
  revert s. induction l as [|[k1 v1] l IH]; intros s H Ht.
  - inversion H; subst. auto.
  - simpl in H. apply bind_ok in H as ([] & s1 & H1 & H2).
    apply wrapped_ok, db_Exec_ok in H1 as [H1 _].
    destruct Ht as (t & Ht & Hs).
    destruct (insert_default_spec (db s) t k1 v1 Ht Hs)
      as (d' & t' & He & Ht' & Hs' & Hfr & Hk & Hne & _).
    rewrite He in H1. inversion H1 as [Hd]. rewrite Hd in *.
    destruct (IH s1 H2) as (Hex & Hfr' & Hget); [eauto|].
    split; [done|]. split; [intros n Hn; rewrite Hfr', Hfr; auto|].
    intros k. rewrite Hget. unfold default_of. simpl.
    destruct (String.eqb_spec k1 k) as [->|Hkk].
    + rewrite Hk. simpl. by destruct (snd <$> List.find _ l).
    + rewrite Hne by done. done.
Qed.


(** ** ensureBlacklistTables *)

Lemma ensureBlacklistTables_ok env s s' :
  ensureBlacklistTables env s = (Ok tt, s') →
  ∃ c s1 s2,
    xdb_DB env "default" = Ok (Some c) ∧
    db_Exec (Some c) createAppSettingsSQL s = (Ok tt, s1) ∧
    db_Exec (Some c) createBlacklistSQL s1 = (Ok tt, s2) ∧
    insertDefaults (Some c) defaultSettings s2 = (Ok tt, s').
Proof.
  unfold ensureBlacklistTables.
  intros (h & s0 & H0 & H)%bind_ok.
  apply wrapped_ok in H0. unfold pure_call in H0. injection H0 as Hh <-.
  apply bind_ok in H as ([] & s1 & H1 & H'). apply wrapped_ok in H1.
  apply bind_ok in H' as ([] & s2 & H2 & H3). apply wrapped_ok in H2.
  destruct h as [c|]; [|discriminate]. exists c, s1, s2. auto.
Qed.

(** What a successful run leaves behind. *)
Lemma ensureBlacklistTables_tables env s s' :
  settings_table_ok (db s) → ensureBlacklistTables env s = (Ok tt, s') →
  (∃ t, db s' !! "app_settings" = Some t ∧ tbl_schema t = app_settings_schema) ∧
  is_Some (db s' !! "provider_blacklist") ∧
  ∀ k, get_setting (db s') k =
       match default_of defaultSettings k with
       | Some v => Some (default (VText v) (get_setting (db s) k))
       | None => get_setting (db s) k
       end.
Proof.
  intros Hok (c & s1 & s2 & Hc & H1 & H2 & H3)%ensureBlacklistTables_ok.
  apply db_Exec_ok in H1 as [H1 _]. apply db_Exec_ok in H2 as [H2 _].
  destruct (create_settings_spec _ _ Hok H1) as ((t & Ht & Hs) & Hget & _).
  assert (db s2 !! "app_settings" = db s1 !! "app_settings") as Hsame
    by (by apply (exec_other _ _ _ _ H2)).
  destruct (insertDefaults_spec _ _ _ _ H3) as (Hex & Hfr & Hget').
  { exists t. by rewrite Hsame. }
  split; [done|]. split.
  - rewrite Hfr by done. simpl in H2.
    destruct (db s1 !! "provider_blacklist") eqn:E; inversion H2; subst.
    + by rewrite E.
    + by rewrite lookup_insert_eq.
  - intros k. by rewrite Hget', (get_setting_ext _ _ _ Hsame), Hget.
Qed.

(** *** Following a computation through every outcome *)

Lemma moves_bind {A B} (R : state → state → Prop) (m : M A) (k : A → M B) :
  (∀ s1 s2 s3, R s1 s2 → R s2 s3 → R s1 s3) →
  moves R m → (∀ a, moves R (k a)) → moves R (bind m k).
Proof.
  intros Htrans Hm Hk s. unfold bind. pose proof (Hm s) as H1.
  destruct (m s) as [[a|e|] s1]; simpl in *; [|done..].
  by apply (Htrans s s1), Hk.
Qed.

Lemma moves_wrapped {A} (R : state → state → Prop) c (m : M A) :
  moves R m → moves R (wrapped c m).
Proof. intros Hm s. unfold wrapped. pose proof (Hm s). by destruct (m s). Qed.

Lemma moves_pure_call {A} (R : state → state → Prop) (o : outcome A) :
  (∀ s, R s s) → moves R (pure_call o).
Proof. intros Hrefl s. apply Hrefl. Qed.

(** [db.Exec] ends where it began, or where the statement led; either way
    standard output is as it was. *)
Lemma db_Exec_cases h q s :
  stdout (db_Exec h q s).2 = stdout s ∧
  (db (db_Exec h q s).2 = db s ∨ exec (db s) q = Ok (db (db_Exec h q s).2)).
Proof.
  split; [|apply db_Exec_db].
  destruct h as [c|]; [|done]. unfold db_Exec, bind.
  pose proof (round_trip_db s) as [_ Ho].
  destruct (round_trip s) as [[[]|e|] s1]; simpl in *; auto.
  destruct (exec (db s1) q); done.
Qed.

Lemma moves_db_Exec (R : store → store → Prop) h q :
  (∀ d, R d d) → (∀ d d', exec d q = Ok d' → R d d') →
  moves (λ s s', R (db s) (db s')) (db_Exec h q).
Proof.
  intros Hrefl Hq s. destruct (db_Exec_cases h q s) as [_ [->|He]]; auto.
Qed.

Lemma moves_insertDefaults (R : store → store → Prop) h l :
  (∀ d, R d d) → (∀ d1 d2 d3, R d1 d2 → R d2 d3 → R d1 d3) →
  (∀ k v d d', (k, v) ∈ l → exec d (insertDefaultSQL k v) = Ok d' → R d d') →
  moves (λ s s', R (db s) (db s')) (insertDefaults h l).
Proof.
  intros Hrefl Htrans Hq. induction l as [|[k v] l IH]; cbn [insertDefaults fst snd].
  - intros s. apply Hrefl.
  - apply moves_bind; [eauto| |].
    + apply moves_wrapped, moves_db_Exec; [done|]. intros d d'. apply Hq. by left.
    + intros _. apply IH. intros k' v' d d' Hin. apply Hq. by right.
Qed.

(** A relation on database files that every statement of
    [ensureBlacklistTables] respects holds between its start and its end. *)
Lemma moves_ensureBlacklistTables (R : store → store → Prop) env :
  (∀ d, R d d) → (∀ d1 d2 d3, R d1 d2 → R d2 d3 → R d1 d3) →
  (∀ d d', exec d createAppSettingsSQL = Ok d' → R d d') →
  (∀ d d', exec d createBlacklistSQL = Ok d' → R d d') →
  (∀ k v d d', (k, v) ∈ defaultSettings → exec d (insertDefaultSQL k v) = Ok d' → R d d') →
  moves (λ s s', R (db s) (db s')) (ensureBlacklistTables env).
Proof.
  intros Hrefl Htrans H1 H2 H3. unfold ensureBlacklistTables.
  apply moves_bind; [eauto| |].
  { apply moves_wrapped, moves_pure_call. intros s. apply Hrefl. }
  intros h. apply moves_bind; [eauto| |].
  { by apply moves_wrapped, moves_db_Exec. }
  intros _. apply moves_bind; [eauto| |].
  { by apply moves_wrapped, moves_db_Exec. }
  intros _. by apply moves_insertDefaults.
Qed.


Lemma bind_pure_ok {A B} c (a : A) (k : A → M B) s :
  bind (wrapped c (pure_call (Ok a))) k s = k a s.
Proof. reflexivity. Qed.

(** C1. After a successful [ensureBlacklistTables], [app_settings] holds the
    keys enable_blacklist, blacklist_failure_threshold and
    blacklist_duration_minutes with the values "true", "3" and "30", except
    that a key that was there before keeps the value it had. *)
Theorem ensureBlacklistTables_seeds_defaults env s s' :
  settings_table_ok (db s) →
  ensureBlacklistTables env s = (Ok tt, s') →
  get_setting (db s') "enable_blacklist"
    = Some (default (VText "true") (get_setting (db s) "enable_blacklist")) ∧
  get_setting (db s') "blacklist_failure_threshold"
    = Some (default (VText "3") (get_setting (db s) "blacklist_failure_threshold")) ∧
  get_setting (db s') "blacklist_duration_minutes"
    = Some (default (VText "30") (get_setting (db s) "blacklist_duration_minutes")).
Proof.
  intros Hok Hrun.
  destruct (ensureBlacklistTables_tables env s s' Hok Hrun) as (_ & _ & Hget).
  repeat split; apply Hget.
Qed.

Lemma seeds_defaults_witness :
  let s' := (ensureBlacklistTables Sample.env Sample.tuned).2 in
  get_setting (db s') "enable_blacklist" = Some (VText "false") ∧
  get_setting (db s') "blacklist_failure_threshold" = Some (VText "3") ∧
  get_setting (db s') "blacklist_duration_minutes" = Some (VText "30").
Proof.
  assert (settings_table_ok (db Sample.tuned)) as Hok.
  { intros t Ht. vm_compute in Ht. by inversion Ht. }
  assert (ensureBlacklistTables Sample.env Sample.tuned
          = (Ok tt, (ensureBlacklistTables Sample.env Sample.tuned).2)) as Hrun
    by (vm_compute; reflexivity).
  exact (ensureBlacklistTables_seeds_defaults _ _ _ Hok Hrun).
Defined.

Lemma same_data_get_setting d d' k : same_data d d' → get_setting d' k = get_setting d k.
Proof.
  intros [_ (t & t' & Ht & Ht' & _ & Hr & _)].
  by rewrite (get_setting_rows d' t' k Ht'), (get_setting_rows d t k Ht), Hr.
Qed.

Lemma same_data_trans d1 d2 d3 : same_data d1 d2 → same_data d2 d3 → same_data d1 d3.
Proof.
  intros [Hfr1 (t1 & t2 & Ht1 & Ht2 & Hs1 & Hr1 & Hq1)]
         [Hfr2 (t2' & t3 & Ht2' & Ht3 & Hs2 & Hr2 & Hq2)].
  rewrite Ht2 in Ht2'. injection Ht2' as <-. split.
  - intros name Hn. by rewrite Hfr2, Hfr1.
  - exists t1, t3. repeat split; [done|done|congruence|congruence|lia].
Qed.

Lemma initialised_same_data d d' : initialised d → same_data d d' → initialised d'.
Proof.
  intros ((t & Ht & Hs) & Hb & Hk) Hsame.
  pose proof Hsame as [Hfr (t0 & t' & Ht0 & Ht' & Hs' & _)].
  rewrite Ht in Ht0. injection Ht0 as <-. split; [|split].
  - exists t'. split; [done|congruence].
  - by rewrite Hfr.
  - intros k v Hin. rewrite (same_data_get_setting d d' k Hsame). eauto.
Qed.

(** On an initialised database file every statement of
    [ensureBlacklistTables] keeps the data, so the whole run does, whatever
    its outcome. *)
Lemma ensureBlacklistTables_rerun env s :
  initialised (db s) → same_data (db s) (db (ensureBlacklistTables env s).2).
Proof.
  intros Hi.
  apply (moves_ensureBlacklistTables (λ d d', initialised d → same_data d d') env);
    [| | | | |done].
  - intros d ((t & Ht & _) & _). split; [done|]. exists t, t. by repeat split.
  - intros d1 d2 d3 H12 H23 H1. apply (same_data_trans d1 d2 d3); [auto|].
    apply H23, (initialised_same_data d1); auto.
  - intros d d' He ((t & Ht & _) & _). simpl in He. rewrite Ht in He. injection He as <-.
    split; [done|]. exists t, t. by repeat split.
  - intros d d' He ((t & Ht & _) & [b Hb] & _). simpl in He. rewrite Hb in He.
    injection He as <-. split; [done|]. exists t, t. by repeat split.
  - intros k v d d' Hin He ((t & Ht & Hs) & _ & Hk).
    destruct (insert_default_spec d t k v Ht Hs)
      as (d2 & t' & He2 & Ht' & Hs' & Hfr & _ & _ & Hrows & _ & Hseq).
    rewrite He in He2. injection He2 as <-. split; [done|].
    exists t, t'. repeat split; [done|done|congruence|eauto|done].
Qed.

(** C4, as amended. On a database file on which [ensureBlacklistTables] has
    succeeded (app_settings having been absent, or the table this code
    defines, before that run), another run keeps the data whatever its
    outcome: app_settings keeps its definition and its rows, every other
    table is exactly as it was, and every key keeps its value.  Only the
    AUTOINCREMENT counter of app_settings may have moved on. *)
Theorem ensureBlacklistTables_idempotent env s s1 :
  settings_table_ok (db s) →
  ensureBlacklistTables env s = (Ok tt, s1) →
  ∀ s2, db s2 = db s1 →
    same_data (db s1) (db (ensureBlacklistTables env s2).2) ∧
    ∀ k, get_setting (db (ensureBlacklistTables env s2).2) k = get_setting (db s1) k.
Proof.
  intros Hok Hrun.
  destruct (ensureBlacklistTables_tables env s s1 Hok Hrun) as (Ht & Hb & Hget).
  assert (initialised (db s1)) as Hi.
  { split; [done|]. split; [done|]. intros k v Hin. rewrite Hget.
    assert (default_of defaultSettings k = Some v) as ->; [|done].
    unfold defaultSettings in Hin.
    repeat (apply elem_of_cons in Hin as [[= -> ->]|Hin]; [done|]).
    by apply elem_of_nil in Hin. }
  intros s2 Hs2. rewrite <- Hs2 in Hi |- *.
  pose proof (ensureBlacklistTables_rerun env s2 Hi) as Hsame.
  split; [done|]. intros k. by apply same_data_get_setting.
Qed.

Lemma idempotent_witness :
  let s1 := (ensureBlacklistTables Sample.env Sample.tuned).2 in
  same_data (db s1) (db (ensureBlacklistTables Sample.env s1).2) ∧
  get_setting (db (ensureBlacklistTables Sample.env s1).2) "enable_blacklist"
    = get_setting (db s1) "enable_blacklist".
Proof.
  assert (settings_table_ok (db Sample.tuned)) as Hok.
  { intros t Ht. vm_compute in Ht. by inversion Ht. }
  assert (ensureBlacklistTables Sample.env Sample.tuned
          = (Ok tt, (ensureBlacklistTables Sample.env Sample.tuned).2)) as Hrun
    by (vm_compute; reflexivity).
  destruct (ensureBlacklistTables_idempotent _ _ _ Hok Hrun
              (ensureBlacklistTables Sample.env Sample.tuned).2 eq_refl) as [Hd Hk].
  split; [exact Hd|apply Hk].
Defined.

(** C4 as stated fails: a second run on a fresh database file succeeds, and
    each of its three ignored inserts has taken a rowid, so the
    AUTOINCREMENT counter of app_settings has gone from 3 to 6 and the file
    is not the one the first run left. *)
Lemma idempotent_counterexample :
  ensureBlacklistTables Sample.env Sample.fresh
    = (Ok tt, (ensureBlacklistTables Sample.env Sample.fresh).2) ∧
  (ensureBlacklistTables Sample.env (ensureBlacklistTables Sample.env Sample.fresh).2).1
    = Ok tt ∧
  tbl_seq <$> db (ensureBlacklistTables Sample.env Sample.fresh).2 !! "app_settings"
    = Some 3 ∧
  tbl_seq <$> db (ensureBlacklistTables Sample.env
                    (ensureBlacklistTables Sample.env Sample.fresh).2).2 !! "app_settings"
    = Some 6 ∧
  db (ensureBlacklistTables Sample.env (ensureBlacklistTables Sample.env Sample.fresh).2).2
    ≠ db (ensureBlacklistTables Sample.env Sample.fresh).2.
Proof.
  split; [vm_compute; reflexivity|]. split; [vm_compute; reflexivity|].
  split; [vm_compute; reflexivity|]. split; [vm_compute; reflexivity|].
  intros E. apply (f_equal (λ d, tbl_seq <$> d !! "app_settings")) in E.
  vm_compute in E. discriminate E.
Qed.


(** ** InitDatabase *)

Lemma prewarm_not_err env s : is_err (prewarm env s).1 = false.
Proof.
  unfold prewarm. destruct (xdb_DB env "default") as [[c|]|e|]; try done.
  by destruct (db_QueryRow_count _ _ _) as [[n|e|] s'].
Qed.

Lemma prewarm_query_fails env c s e s' :
  xdb_DB env "default" = Ok (Some c) →
  db_QueryRow_count (Some c) "request_log" s = (Err e, s') →
  prewarm env s = (Ok tt, print (PrewarmFailed e) s').
Proof. intros Hc Hq. unfold prewarm. by rewrite Hc, Hq. Qed.

(** [InitDatabase] once its first three steps are known to succeed. *)
Lemma InitDatabase_tables env s home :
  os_UserHomeDir env = Ok home →
  os_MkdirAll env (configDir home) 493 = None →
  xdb_Inits env (poolConfig home) = None →
  InitDatabase env s =
    (_ <- wrapped "初始化 request_log 表失败" (ensureRequestLogTable env) ;;
     _ <- wrapped "初始化黑名单表失败" (ensureBlacklistTables env) ;;
     _ <- prewarm env ;;
     ret tt) s.
Proof.
  intros Hh Hm Hp. unfold InitDatabase. rewrite Hh, bind_pure_ok.
  fold (configDir home). rewrite Hm. simpl error_only. rewrite bind_pure_ok.
  fold (poolConfig home). rewrite Hp. simpl error_only. by rewrite bind_pure_ok.
Qed.

(** C10. [InitDatabase] returns a non-nil error exactly when resolving the
    home directory, creating the config directory, initialising the pool,
    or creating the request_log or the blacklist tables fails; when these
    succeed it returns nil, and a failing prewarm query is only printed. *)
Theorem InitDatabase_error_iff env s :
  (is_err (InitDatabase env s).1 = true ↔ failing_step env s) ∧
  (∀ home s1 s2 c e s3,
     os_UserHomeDir env = Ok home →
     os_MkdirAll env (configDir home) 493 = None →
     xdb_Inits env (poolConfig home) = None →
     ensureRequestLogTable env s = (Ok tt, s1) →
     ensureBlacklistTables env s1 = (Ok tt, s2) →
     xdb_DB env "default" = Ok (Some c) →
     db_QueryRow_count (Some c) "request_log" s2 = (Err e, s3) →
     InitDatabase env s = (Ok tt, print (PrewarmFailed e) s3)).
Proof.
  split; [split|].
  - intros Herr.
    destruct (os_UserHomeDir env) as [home|e|] eqn:Hh;
      [|by apply fail_home; rewrite Hh|by unfold InitDatabase in Herr; rewrite Hh in Herr].
    destruct (os_MkdirAll env (configDir home) 493) as [e|] eqn:Hm;
      [by eapply fail_mkdir; [done|rewrite Hm]|].
    destruct (xdb_Inits env (poolConfig home)) as [e|] eqn:Hp;
      [by eapply fail_pool; [done|done|rewrite Hp]|].
    rewrite (InitDatabase_tables env s home Hh Hm Hp) in Herr.
    unfold bind, wrapped in Herr.
    destruct (ensureRequestLogTable env s) as [[[]|e|] s1] eqn:H1; simpl in Herr;
      [|by eapply fail_request_log; [done|done|done|rewrite H1]|done].
    destruct (ensureBlacklistTables env s1) as [[[]|e|] s2] eqn:H2; simpl in Herr;
      [|by eapply fail_blacklist; [done|done|done|done|rewrite H2]|done].
    pose proof (prewarm_not_err env s2) as Hpw.
    by destruct (prewarm env s2) as [[[]|e|] s3].
  - intros [Hh|home Hh Hm|home Hh Hm Hp|home Hh Hm Hp H1|home s1 Hh Hm Hp H1 H2].
    + unfold InitDatabase, bind, wrapped, pure_call.
      by destruct (os_UserHomeDir env).
    + unfold InitDatabase. rewrite Hh, bind_pure_ok. fold (configDir home).
      by destruct Hm as [e ->].
    + unfold InitDatabase. rewrite Hh, bind_pure_ok. fold (configDir home).
      rewrite Hm. simpl error_only. rewrite bind_pure_ok. fold (poolConfig home).
      by destruct Hp as [e ->].
    + rewrite (InitDatabase_tables env s home Hh Hm Hp). unfold bind, wrapped.
      by destruct (ensureRequestLogTable env s) as [[[]|e|] s1].
    + rewrite (InitDatabase_tables env s home Hh Hm Hp). unfold bind, wrapped.
      rewrite H1. simpl. by destruct (ensureBlacklistTables env s1) as [[[]|e|] s2].
  - intros home s1 s2 c e s3 Hh Hm Hp H1 H2 Hc Hq.
    rewrite (InitDatabase_tables env s home Hh Hm Hp). unfold bind, wrapped.
    rewrite H1. simpl. rewrite H2. simpl.
    by rewrite (prewarm_query_fails env c s2 e s3 Hc Hq).
Qed.

Lemma InitDatabase_prewarm_witness :
  (InitDatabase Sample.env_no_log Sample.fresh).1 = Ok tt ∧
  stdout (InitDatabase Sample.env_no_log Sample.fresh).2
    = [PrewarmFailed no_such_table].
Proof.
  set (s2 := (ensureBlacklistTables Sample.env_no_log Sample.fresh).2).
  assert (ensureBlacklistTables Sample.env_no_log Sample.fresh = (Ok tt, s2)) as H2
    by (vm_compute; reflexivity).
  assert (db_QueryRow_count (Some (Conn "default")) "request_log" s2
          = (Err no_such_table, s2)) as Hq
    by (vm_compute; reflexivity).
  rewrite (proj2 (InitDatabase_error_iff Sample.env_no_log Sample.fresh)
             "/home/dev" Sample.fresh s2 (Conn "default") no_such_table s2
             eq_refl eq_refl eq_refl eq_refl H2 eq_refl Hq).
  split; vm_compute; reflexivity.
Defined.


(** ** The provider_blacklist table *)

Lemma build_row_blacklist t vp vn :
  tbl_schema t = blacklist_schema →
  build_row t (list_to_map (zip ["platform"; "provider_name"] [vp; vn]))
  = blacklist_row t vp vn.
Proof.
  intros Hs. unfold build_row. rewrite Hs. cbn.
  rewrite !lookup_insert_ne by done. rewrite lookup_insert_eq.
  by rewrite lookup_empty.
Qed.

Ltac col_of_row :=
  unfold col, blacklist_row; rewrite ?lookup_insert_ne by done;
  by rewrite lookup_insert_eq.

Lemma blacklist_row_cols t vp vn :
  let r := blacklist_row t vp vn in
  col r "id" = VInt (next_rowid t "id") ∧
  col r "platform" = vp ∧ col r "provider_name" = vn ∧
  col r "failure_count" = VInt 0 ∧ col r "blacklist_level" = VInt 0 ∧
  col r "last_degrade_hour" = VInt 0 ∧ col r "auto_recovered" = VInt 0 ∧
  col r "blacklisted_at" = VNull ∧ col r "blacklisted_until" = VNull ∧
  col r "last_failure_at" = VNull ∧ col r "last_recovered_at" = VNull ∧
  col r "last_failure_window_start" = VNull.
Proof. repeat split; col_of_row. Qed.

Lemma unique_sets_blacklist :
  unique_sets blacklist_schema = [ ["id"]; ["platform"; "provider_name"] ].
Proof. reflexivity. Qed.

Lemma collides_blacklist r1 r2 :
  collides blacklist_schema r1 r2
  = negb (is_null (col r1 "id")) && bool_decide (col r1 "id" = col r2 "id")
    || negb (is_null (col r1 "platform")) && bool_decide (col r1 "platform" = col r2 "platform")
       && (negb (is_null (col r1 "provider_name"))
           && bool_decide (col r1 "provider_name" = col r2 "provider_name")).
Proof.
  unfold collides. rewrite unique_sets_blacklist. simpl.
  by rewrite !andb_true_r, orb_false_r.
Qed.

Lemma notnull_blacklist r :
  notnull_ok blacklist_schema r = true ↔
  col r "platform" ≠ VNull ∧ col r "provider_name" ≠ VNull.
Proof.
  cbn. rewrite !andb_true_r, andb_true_iff, !negb_true_iff.
  split; intros [H1 H2].
  - split; intros E; by rewrite E in *.
  - by destruct (col r "platform"), (col r "provider_name").
Qed.

Lemma rowid_blacklist r :
  rowid_ok blacklist_schema r = true ↔ ∃ z, col r "id" = VInt z.
Proof.
  cbn. rewrite andb_true_r. destruct (col r "id"); split; try done; eauto.
  all: by intros [? ?].
Qed.

Lemma rows_unique_lookup s (rows : list row) i j r1 r2 :
  rows_unique s rows = true → rows !! i = Some r1 → rows !! j = Some r2 → i ≠ j →
  collides s r1 r2 = false.
Proof.
  assert (∀ (rows : list row) i j r1 r2,
            rows_unique s rows = true → rows !! i = Some r1 → rows !! j = Some r2 →
            (i < j)%nat → collides s r1 r2 = false) as Hlt.
  { clear. induction rows as [|r rows IH]; intros i j r1 r2 Hu Hi Hj Hij; [done|].
    simpl in Hu. apply andb_prop in Hu as [Hc Hu]. apply negb_true_iff in Hc.
    destruct i as [|i], j as [|j]; simpl in *; try lia.
    - injection Hi as <-. apply list_elem_of_lookup_2, list_elem_of_In in Hj.
      unfold conflicts in Hc.
      destruct (collides s r r2) eqn:E; [|done].
      assert (existsb (collides s r) rows = true) by (apply existsb_exists; eauto).
      congruence.
    - apply (IH i j); auto with lia. }
  intros Hu Hi Hj Hij. destruct (decide (i < j)%nat).
  - by apply (Hlt rows i j).
  - rewrite collides_sym. apply (Hlt rows j i); auto with lia.
Qed.


Lemma matches_key_cond p n r :
  matches (key_cond p n) r = true ↔
  col r "platform" = VText p ∧ col r "provider_name" = VText n.
Proof.
  unfold matches, key_cond. simpl.
  rewrite !andb_true_r, andb_true_iff, !bool_decide_eq_true. done.
Qed.

Lemma conflicts_record t p n :
  tbl_schema t = blacklist_schema →
  conflicts (tbl_schema t) (blacklist_row t (VText p) (VText n)) (tbl_rows t)
  = existsb (matches (key_cond p n)) (tbl_rows t).
Proof.
  intros Hs. rewrite Hs. unfold conflicts.
  assert (∀ r0, r0 ∈ tbl_rows t →
            collides blacklist_schema (blacklist_row t (VText p) (VText n)) r0
            = matches (key_cond p n) r0) as Hext.
  { intros r0 Hr0. rewrite collides_blacklist.
    destruct (blacklist_row_cols t (VText p) (VText n)) as (-> & -> & -> & _).
    pose proof (next_rowid_fresh t "id" r0 Hr0) as Hfresh.
    rewrite (bool_decide_eq_false_2 (VInt _ = _)) by congruence.
    unfold matches, key_cond. cbn [negb is_null andb orb forallb fst snd].
    rewrite !andb_true_r.
    f_equal; apply bool_decide_ext; split; congruence. }
  induction (tbl_rows t) as [|r0 rows IH]; [done|]. simpl.
  rewrite Hext by left. f_equal. apply IH. intros; apply Hext. by right.
Qed.

Lemma insert_record_exec d t oc p n :
  d !! "provider_blacklist" = Some t → tbl_schema t = blacklist_schema →
  exec d (insertRecordSQL oc p n) =
    if existsb (matches (key_cond p n)) (tbl_rows t)
    then match oc with
         | OrIgnore =>
             Ok (<["provider_blacklist" :=
                     {| tbl_schema := tbl_schema t;
                        tbl_rows := tbl_rows t;
                        tbl_seq := Z.max (tbl_seq t) (Z.max (next_rowid t "id") 0) |}]> d)
         | OrAbort => Err constraint_failed
         end
    else Ok (<["provider_blacklist" :=
                 {| tbl_schema := tbl_schema t;
                    tbl_rows := tbl_rows t ++ [blacklist_row t (VText p) (VText n)];
                    tbl_seq := Z.max (tbl_seq t) (Z.max (next_rowid t "id") 0) |}]> d).
Proof.
  intros Ht Hs. unfold insertRecordSQL, exec. rewrite Ht. unfold insert_into.
  rewrite build_row_blacklist by done. rewrite conflicts_record by done.
  rewrite Hs. change (negb (Nat.eqb _ _)) with false. cbv iota.
  change (negb (known_cols _ _)) with false. cbv iota.
  destruct (blacklist_row_cols t (VText p) (VText n)) as (Hid & Hp & Hn & _).
  assert (rowid_ok blacklist_schema (blacklist_row t (VText p) (VText n)) = true) as ->
    by (apply rowid_blacklist; eauto).
  assert (notnull_ok blacklist_schema (blacklist_row t (VText p) (VText n)) = true) as ->
    by (apply notnull_blacklist; by rewrite Hp, Hn).
  assert (row_seq blacklist_schema (blacklist_row t (VText p) (VText n))
          = Z.max (next_rowid t "id") 0) as ->
    by (cbn; by rewrite Hid).
  cbn [negb andb]. destruct (existsb _ (tbl_rows t)); cbn [negb]; cbv iota; [|done].
  by destruct oc.
Qed.

(** C3. A row created by inserting only platform and provider_name is
    healthy: failure_count, blacklist_level and last_degrade_hour are 0,
    auto_recovered is 0 (false), and the five timestamps are NULL. *)
Theorem inserted_record_is_healthy d t oc p n d' t' r :
  d !! "provider_blacklist" = Some t →
  tbl_schema t = blacklist_schema →
  exec d (insertRecordSQL oc p n) = Ok d' →
  d' !! "provider_blacklist" = Some t' →
  r ∈ tbl_rows t' → r ∉ tbl_rows t →
  (col r "platform" = VText p ∧ col r "provider_name" = VText n ∧
   col r "failure_count" = VInt 0 ∧ col r "blacklist_level" = VInt 0 ∧
   col r "last_degrade_hour" = VInt 0 ∧ col r "auto_recovered" = VInt 0 ∧
   col r "blacklisted_at" = VNull ∧ col r "blacklisted_until" = VNull ∧
   col r "last_failure_at" = VNull ∧ col r "last_recovered_at" = VNull ∧
   col r "last_failure_window_start" = VNull) ∧
  decode r = healthy_record p n.
Proof.
  intros Ht Hs He Ht' Hr Hnew. rewrite (insert_record_exec d t oc p n Ht Hs) in He.
  destruct (existsb _ (tbl_rows t)).
  - destruct oc; [done|]. injection He as <-. rewrite lookup_insert_eq in Ht'.
    injection Ht' as <-. done.
  - injection He as <-. rewrite lookup_insert_eq in Ht'. injection Ht' as <-. simpl in Hr.
    apply elem_of_app in Hr as [Hr|Hr%list_elem_of_singleton]; [done|]. subst r.
    destruct (blacklist_row_cols t (VText p) (VText n))
      as (_ & H1 & H2 & H3 & H4 & H5 & H6 & H7 & H8 & H9 & H10 & H11).
    split; [by repeat split|].
    unfold decode. by rewrite H1, H2, H3, H4, H5, H6, H7, H8, H9, H10, H11.
Qed.


Lemma inserted_record_witness :
  decode (blacklist_row Sample.empty_blacklist (VText "claude") (VText "kimi"))
  = healthy_record "claude" "kimi".
Proof.
  assert (Sample.ready_db !! "provider_blacklist" = Some Sample.empty_blacklist) as Ht
    by (vm_compute; reflexivity).
  assert (exec Sample.ready_db (insertRecordSQL OrAbort "claude" "kimi")
          = Ok Sample.one_record_db) as He
    by (vm_compute; reflexivity).
  refine (proj2 (inserted_record_is_healthy _ _ _ _ _ _ _ _ Ht eq_refl He
                   (lookup_insert_eq _ _ _) _ _)).
  - apply list_elem_of_here.
  - apply not_elem_of_nil.
Defined.

End DatabaseFacts.

(** ** The blacklist core *)

Module BlacklistFacts.
Import Sql Database Blacklist Props SqlFacts DatabaseFacts.

(** *** Reading and writing records *)

Lemma load_rows d t p n :
  d !! "provider_blacklist" = Some t →
  load d p n = Ok (decode <$> head (List.filter (matches (key_cond p n)) (tbl_rows t))).
Proof. intros Ht. unfold load, select. by rewrite Ht. Qed.

Lemma record_of_rows d t p n :
  d !! "provider_blacklist" = Some t →
  record_of d p n = decode <$> head (List.filter (matches (key_cond p n)) (tbl_rows t)).
Proof. intros Ht. unfold record_of. by rewrite (load_rows d t p n Ht). Qed.

Lemma load_record_of d p n :
  blacklist_ok d → load d p n = Ok (record_of d p n).
Proof.
  intros (t & Ht & _). by rewrite (record_of_rows d t p n Ht), (load_rows d t p n Ht).
Qed.

Lemma head_filter_In {A} (f : A → bool) l a :
  head (List.filter f l) = Some a → a ∈ l ∧ f a = true.
Proof.
  induction l as [|b l IH]; simpl; [done|].
  destruct (f b) eqn:E; simpl.
  - intros [= ->]. split; [by left|done].
  - intros [H1 H2]%IH. split; [by right|done].
Qed.

Lemma record_of_identity d p n r :
  record_of d p n = Some r → platform r = p ∧ providerName r = n.
Proof.
  unfold record_of, load, select. destruct (d !! "provider_blacklist") as [t|]; [|done].
  simpl. destruct (head _) as [r0|] eqn:E; [|done]. intros [= <-].
  apply head_filter_In in E as [_ [Hp Hn]%matches_key_cond].
  unfold decode. simpl. by rewrite Hp, Hn.
Qed.

Lemma same_keys_assign rec r : same_keys (assign (encode rec) r) r.
Proof.
  unfold same_keys, assign, encode, col. simpl.
  by rewrite !lookup_insert_ne by done.
Qed.

Lemma same_keys_save_row rec r : same_keys (save_row rec r) r.
Proof.
  unfold save_row. destruct (matches _ _); [apply same_keys_assign|done].
Qed.

Lemma collides_same_keys r1 r1' r2 r2' :
  same_keys r1' r1 → same_keys r2' r2 →
  collides blacklist_schema r1' r2' = collides blacklist_schema r1 r2.
Proof.
  intros (Ha & Hb & Hc) (Ha' & Hb' & Hc'). rewrite !collides_blacklist.
  by rewrite Ha, Hb, Hc, Ha', Hb', Hc'.
Qed.

Lemma rows_unique_map (f : row → row) rows :
  (∀ r, same_keys (f r) r) →
  rows_unique blacklist_schema (map f rows) = rows_unique blacklist_schema rows.
Proof.
  intros Hf. induction rows as [|r rows IH]; simpl; [done|]. rewrite IH. f_equal. f_equal.
  unfold conflicts. clear IH. induction rows as [|r' rows IH]; simpl; [done|].
  by rewrite IH, (collides_same_keys r (f r) r' (f r')).
Qed.

Lemma matches_same_keys p n r r' :
  same_keys r' r → matches (key_cond p n) r' = matches (key_cond p n) r.
Proof.
  intros (_ & Hb & Hc). unfold matches, key_cond. simpl. by rewrite Hb, Hc.
Qed.

Lemma filter_map_comm {A} (f : A → A) (g : A → bool) l :
  (∀ a, g (f a) = g a) → List.filter g (map f l) = map f (List.filter g l).
Proof.
  intros Hg. induction l as [|a l IH]; simpl; [done|].
  rewrite Hg. destruct (g a); simpl; by rewrite IH.
Qed.

Lemma head_map {A B} (f : A → B) l : head (map f l) = f <$> head l.
Proof. by destruct l. Qed.

Lemma decode_assign rec r :
  col r "platform" = VText (platform rec) →
  col r "provider_name" = VText (providerName rec) →
  decode (assign (encode rec) r) = rec.
Proof.
  intros Hp Hn. destruct (same_keys_assign rec r) as (_ & Hp' & Hn').
  unfold decode. rewrite Hp', Hn', Hp, Hn.
  unfold assign, encode, col. simpl.
  repeat (rewrite lookup_insert_eq || rewrite lookup_insert_ne by done). simpl.
  destruct rec as [p n fc fw lf bl ba bu dh lr ar]; simpl.
  by destruct fw, lf, ba, bu, lr, ar.
Qed.


Lemma table_ok_save t rec :
  tbl_schema t = blacklist_schema → table_ok t →
  forallb (rowid_ok blacklist_schema) (map (save_row rec) (tbl_rows t)) = true ∧
  forallb (notnull_ok blacklist_schema) (map (save_row rec) (tbl_rows t)) = true ∧
  rows_unique blacklist_schema (map (save_row rec) (tbl_rows t)) = true.
Proof.
  intros Hs [Hu Hall]. rewrite Hs in Hu, Hall.
  rewrite rows_unique_map by apply same_keys_save_row.
  split; [|split; [|done]]; apply forallb_forall; intros r' Hr'%in_map_iff;
    destruct Hr' as (r & <- & Hr%list_elem_of_In);
    rewrite Forall_forall in Hall; destruct (Hall r Hr) as [Hnn Hid];
    destruct (same_keys_save_row rec r) as (Ha & Hb & Hc).
  - apply rowid_blacklist. rewrite Ha. by apply rowid_blacklist.
  - apply notnull_blacklist. rewrite Hb, Hc. by apply notnull_blacklist.
Qed.

Lemma save_exec d t rec :
  d !! "provider_blacklist" = Some t → tbl_schema t = blacklist_schema → table_ok t →
  exec d (saveSQL rec) =
    Ok (<["provider_blacklist" :=
            {| tbl_schema := tbl_schema t;
               tbl_rows := map (save_row rec) (tbl_rows t);
               tbl_seq := tbl_seq t |}]> d).
Proof.
  intros Ht Hs Hok. destruct (table_ok_save t rec Hs Hok) as (Hid & Hnn & Hu).
  unfold saveSQL, exec. rewrite Ht. unfold update_table. rewrite Hs.
  change (negb (known_cols _ _ && known_cols _ _)) with false. cbv iota.
  fold (save_row rec). by rewrite Hid, Hnn, Hu.
Qed.

(** Saving a record: the statement succeeds, the record of that provider (if
    it has one) becomes the saved one, and nothing else changes. *)
Lemma save_spec d rec :
  blacklist_ok d →
  ∃ d', exec d (saveSQL rec) = Ok d' ∧ blacklist_ok d' ∧
        (∀ name, name ≠ "provider_blacklist" → d' !! name = d !! name) ∧
        (record_of d' (platform rec) (providerName rec)
         = (λ _, rec) <$> record_of d (platform rec) (providerName rec)) ∧
        (∀ p n, (p, n) ≠ (platform rec, providerName rec) →
                record_of d' p n = record_of d p n).
Proof.
  intros (t & Ht & Hs & Hok). eexists. split; [by apply save_exec|].
  destruct (table_ok_save t rec Hs Hok) as (Hid & Hnn & Hu).
  split; [|split; [|split]].
  - eexists. rewrite lookup_insert_eq. split; [done|]. split; [done|].
    split; simpl; rewrite Hs; [done|].
    apply Forall_forall. intros r Hr%list_elem_of_In.
    rewrite forallb_forall in Hid, Hnn. auto.
  - intros name Hname. by rewrite lookup_insert_ne.
  - erewrite !record_of_rows by (apply lookup_insert_eq || apply Ht). simpl.
    rewrite filter_map_comm
      by (intros r; apply matches_same_keys, same_keys_save_row).
    rewrite head_map. destruct (head _) as [r0|] eqn:E; [|done]. simpl. f_equal.
    apply head_filter_In in E as [_ Hm]. unfold save_row. rewrite Hm.
    apply matches_key_cond in Hm as [Hp Hn]. by apply decode_assign.
  - intros p n Hne.
    erewrite !record_of_rows by (apply lookup_insert_eq || apply Ht). simpl.
    rewrite filter_map_comm
      by (intros r; apply matches_same_keys, same_keys_save_row).
    rewrite head_map. destruct (head _) as [r0|] eqn:E; [|done]. simpl. f_equal.
    apply head_filter_In in E as [_ [Hp Hn]%matches_key_cond].
    unfold save_row.
    destruct (matches _ r0) eqn:Hm; [|done].
    apply matches_key_cond in Hm as [Hp' Hn']. congruence.
Qed.


Lemma filter_app_nil {A} (f : A → bool) l a :
  List.filter f l = [] → List.filter f (l ++ [a]) = if f a then [a] else [].
Proof. intros H. rewrite List.filter_app, H. simpl. by destruct (f a). Qed.

(** [GetOrCreate]: it succeeds, returns the stored record or a healthy new
    one, and changes nothing but (at most) the row it adds. *)
Lemma GetOrCreate_spec d p n :
  blacklist_ok d →
  ∃ r d', GetOrCreate p n d = Ok (r, d') ∧ blacklist_ok d' ∧
          r = default (healthy_record p n) (record_of d p n) ∧
          record_of d' p n = Some r ∧
          (is_Some (record_of d p n) → d' = d) ∧
          (∀ name, name ≠ "provider_blacklist" → d' !! name = d !! name) ∧
          (∀ p' n', (p', n') ≠ (p, n) → record_of d' p' n' = record_of d p' n').
Proof.
  intros Hok. pose proof Hok as (t & Ht & Hs & Htok).
  unfold GetOrCreate. rewrite (load_record_of d p n Hok). cbn [mbind outcome_bind].
  destruct (record_of d p n) as [r|] eqn:Hr.
  { exists r, d. repeat split; auto. }
  fold (insertRecordSQL OrIgnore p n). rewrite (insert_record_exec d t OrIgnore p n Ht Hs).
  rewrite (record_of_rows d t p n Ht) in Hr.
  assert (List.filter (matches (key_cond p n)) (tbl_rows t) = []) as Hnone
    by (by destruct (List.filter _ _)).
  assert (existsb (matches (key_cond p n)) (tbl_rows t) = false) as ->.
  { destruct (existsb _ _) eqn:E; [|done].
    apply filter_head_existsb in E as [r0 E]. by rewrite Hnone in E. }
  cbn [mbind outcome_bind]. set (r := blacklist_row t (VText p) (VText n)).
  set (t' := {| tbl_schema := tbl_schema t; tbl_rows := tbl_rows t ++ [r];
                tbl_seq := _ |}).
  set (d' := <["provider_blacklist" := t']> d).
  assert (d' !! "provider_blacklist" = Some t') as Ht' by apply lookup_insert_eq.
  destruct (blacklist_row_cols t (VText p) (VText n))
    as (H0 & H1 & H2 & H3 & H4 & H5 & H6 & H7 & H8 & H9 & H10 & H11). fold r in H0, H1, H2.
  assert (matches (key_cond p n) r = true) as Hm
    by (apply matches_key_cond; split; assumption).
  assert (decode r = healthy_record p n) as Hdec.
  { unfold decode. fold r in H3, H4, H5, H6, H7, H8, H9, H10, H11.
    by rewrite H1, H2, H3, H4, H5, H6, H7, H8, H9, H10, H11. }
  assert (blacklist_ok d') as Hok'.
  { exists t'. split; [done|]. split; [done|]. destruct Htok as [Hu Hall]. split; simpl.
    - rewrite rows_unique_snoc, Hu. simpl.
      fold r. unfold r. rewrite conflicts_record by done.
      destruct (existsb _ _) eqn:E; [|done].
      apply filter_head_existsb in E as [r0 E]. by rewrite Hnone in E.
    - apply Forall_app. split; [done|]. repeat constructor; rewrite Hs.
      + apply notnull_blacklist. rewrite H1, H2. split; discriminate.
      + apply rowid_blacklist. eauto. }
  assert (record_of d' p n = Some (healthy_record p n)) as Hrec.
  { rewrite (record_of_rows d' t' p n Ht'). simpl.
    by rewrite (filter_app_nil _ _ _ Hnone), Hm, <- Hdec. }
  rewrite (load_record_of d' p n Hok'), Hrec. cbn [mbind outcome_bind].
  exists (healthy_record p n), d'. repeat split; auto.
  - by intros [? ?].
  - intros name Hname. unfold d'. by rewrite lookup_insert_ne.
  - intros p' n' Hne.
    rewrite (record_of_rows d' t' p' n' Ht'), (record_of_rows d t p' n' Ht). simpl.
    rewrite List.filter_app.
    assert (List.filter (matches (key_cond p' n')) [r] = []) as ->;
      [|by rewrite app_nil_r].
    cbn [List.filter]. destruct (matches (key_cond p' n') r) eqn:Hm'; [|done].
    apply matches_key_cond in Hm' as [Hp' Hn']. congruence.
Qed.

(** [CompareAndSave] when the stored record is the expected one. *)
Lemma CompareAndSave_spec d rec expected :
  blacklist_ok d →
  record_of d (platform rec) (providerName rec) = Some expected →
  ∃ d', CompareAndSave rec expected d = Ok (true, d') ∧
        exec d (saveSQL rec) = Ok d' ∧ blacklist_ok d' ∧
        (∀ name, name ≠ "provider_blacklist" → d' !! name = d !! name) ∧
        record_of d' (platform rec) (providerName rec) = Some rec ∧
        (∀ p n, (p, n) ≠ (platform rec, providerName rec) →
                record_of d' p n = record_of d p n).
Proof.
  intros Hok Hrec. destruct (save_spec d rec Hok) as (d' & He & Hok' & Hfr & Hsame & Hother).
  exists d'. unfold CompareAndSave. rewrite (load_record_of d _ _ Hok), Hrec.
  cbn [mbind outcome_bind].
  rewrite bool_decide_eq_true_2 by done. fold (saveSQL rec). rewrite He.
  cbn [mbind outcome_bind].
  rewrite Hsame, Hrec. repeat split; auto.
Qed.


(** *** The calls of the core *)

Lemma GetSettings_ext d d' :
  d' !! "app_settings" = d !! "app_settings" → GetSettings d' = GetSettings d.
Proof.
  intros H. unfold GetSettings, int_setting. by rewrite !(get_setting_ext d d' _ H).
Qed.

Lemma failed_identity bo ml s now r :
  platform (failed bo ml s now r) = platform r ∧
  providerName (failed bo ml s now r) = providerName r.
Proof.
  unfold failed, escalate. destruct (_ && _); [|done].
  by destruct (_ =? _).
Qed.

Lemma RecordFailure_spec bo ml mr now p n d :
  blacklist_ok d →
  ∃ d', RecordFailure bo ml mr now p n d = Ok d' ∧ blacklist_ok d' ∧
        (∀ name, name ≠ "provider_blacklist" → d' !! name = d !! name) ∧
        record_of d' p n
          = Some (failed bo ml (GetSettings d) now
                    (default (healthy_record p n) (record_of d p n))) ∧
        (∀ p' n', (p', n') ≠ (p, n) → record_of d' p' n' = record_of d p' n').
Proof.
  intros Hok.
  destruct (GetOrCreate_spec d p n Hok) as (r & d1 & Hg & Hok1 & Hr & Hrec1 & _ & Hfr1 & Hoth1).
  assert (GetSettings d1 = GetSettings d) as Hset by (apply GetSettings_ext, Hfr1; done).
  destruct (record_of_identity d1 p n r Hrec1) as [Hp Hn].
  set (r' := failed bo ml (GetSettings d) now r).
  destruct (failed_identity bo ml (GetSettings d) now r) as [Hp' Hn']. fold r' in Hp', Hn'.
  destruct (CompareAndSave_spec d1 r' r Hok1) as (d2 & Hc & _ & Hok2 & Hfr2 & Hrec2 & Hoth2).
  { by rewrite Hp', Hn', Hp, Hn. }
  rewrite Hp', Hn', Hp, Hn in Hrec2, Hoth2.
  exists d2. unfold RecordFailure. cbn [recordFailureLoop]. rewrite Hg.
  cbn [mbind outcome_bind]. rewrite Hset. fold r'. rewrite Hc. cbn [mbind outcome_bind].
  split; [done|]. split; [done|]. split; [|split].
  - intros name Hname. by rewrite Hfr2, Hfr1.
  - by rewrite Hrec2, <- Hr.
  - intros p' n' Hne. by rewrite Hoth2, Hoth1.
Qed.

Lemma recovered_identity now r :
  platform (recovered now r) = platform r ∧ providerName (recovered now r) = providerName r.
Proof. done. Qed.

Lemma IsBlacklisted_spec now p n d :
  blacklist_ok d →
  ∃ d', IsBlacklisted now p n d
        = Ok (enabled (GetSettings d) &&
              from_option (currently_blacklisted now) false (record_of d p n), d') ∧
        blacklist_ok d' ∧
        (∀ name, name ≠ "provider_blacklist" → d' !! name = d !! name) ∧
        record_of d' p n
          = (λ r, if enabled (GetSettings d) && expired now r then recovered now r else r)
              <$> record_of d p n ∧
        (∀ p' n', (p', n') ≠ (p, n) → record_of d' p' n' = record_of d p' n') ∧
        (from_option (λ r, enabled (GetSettings d) && expired now r) false (record_of d p n)
         = false → d' = d).
Proof.
  intros Hok. unfold IsBlacklisted.
  destruct (enabled (GetSettings d)) eqn:Hen; simpl negb; cbv iota.
  2: { exists d. repeat split; auto. simpl. by destruct (record_of d p n). }
  rewrite (load_record_of d p n Hok). cbn [mbind outcome_bind].
  destruct (record_of d p n) as [r|] eqn:Hrec.
  2: { exists d. repeat split; auto. }
  simpl. unfold currently_blacklisted, expired.
  destruct (blacklistedUntil r) as [u|] eqn:Hu.
  2: { exists d. repeat split; auto. }
  destruct (Z.leb_spec u now) as [Hle|Hlt].
  - destruct (record_of_identity d p n r Hrec) as [Hp Hn].
    destruct (CompareAndSave_spec d (recovered now r) r Hok)
      as (d' & Hc & _ & Hok' & Hfr & Hrec' & Hoth).
    { simpl. by rewrite Hp, Hn. }
    simpl in Hrec', Hoth. rewrite Hp, Hn in Hrec', Hoth.
    exists d'. rewrite Hc. cbn [mbind outcome_bind].
    assert ((now <? u) = false) as -> by lia.
    repeat split; auto. done.
  - exists d. assert ((now <? u) = true) as -> by lia. repeat split; auto.
Qed.

Lemma RecordSuccess_spec now p n d :
  blacklist_ok d → RecordSuccess now p n d = Ok d.
Proof.
  intros Hok. unfold RecordSuccess. rewrite (load_record_of d p n Hok).
  cbn [mbind outcome_bind]. destruct (record_of d p n) as [r|]; [|done].
  by destruct (currently_blacklisted now r).
Qed.

(** One call: it succeeds, keeps the store well formed, leaves every other
    table alone, and moves each record as [next_record] says. *)
Lemma step_spec bo ml mr d c :
  blacklist_ok d →
  ∃ d', step bo ml mr d c = Ok d' ∧ blacklist_ok d' ∧
        (∀ name, name ≠ "provider_blacklist" → d' !! name = d !! name) ∧
        ∀ p n, record_of d' p n
               = next_record bo ml (GetSettings d) p n (record_of d p n) c.
Proof.
  intros Hok. destruct c as [now p' n'|now p' n'|now p' n']; simpl.
  - destruct (RecordFailure_spec bo ml mr now p' n' d Hok)
      as (d' & Hr & Hok' & Hfr & Hrec & Hoth).
    exists d'. repeat split; auto. intros p n.
    destruct (decide ((p', n') = (p, n))) as [[= <- <-]|Hne].
    + by rewrite bool_decide_eq_true_2.
    + rewrite bool_decide_eq_false_2 by done. apply Hoth. congruence.
  - exists d. rewrite (RecordSuccess_spec now p' n' d Hok). auto.
  - destruct (IsBlacklisted_spec now p' n' d Hok) as (d' & Hr & Hok' & Hfr & Hrec & Hoth & _).
    exists d'. rewrite Hr. repeat split; auto. intros p n.
    destruct (decide ((p', n') = (p, n))) as [[= <- <-]|Hne].
    + by rewrite bool_decide_eq_true_2.
    + rewrite bool_decide_eq_false_2 by done. apply Hoth. congruence.
Qed.

Lemma run_spec bo ml mr cs d :
  blacklist_ok d →
  ∃ d', run bo ml mr d cs = Ok d' ∧ blacklist_ok d' ∧
        (∀ name, name ≠ "provider_blacklist" → d' !! name = d !! name) ∧
        ∀ p n, record_of d' p n
               = foldl (next_record bo ml (GetSettings d) p n) (record_of d p n) cs.
Proof.
  revert d. induction cs as [|c cs IH]; intros d Hok.
  - exists d. auto.
  - destruct (step_spec bo ml mr d c Hok) as (d1 & Hs & Hok1 & Hfr1 & Hrec1).
    destruct (IH d1 Hok1) as (d2 & Hr & Hok2 & Hfr2 & Hrec2).
    exists d2. cbn [run]. rewrite Hs. cbn [mbind outcome_bind]. rewrite Hr.
    split; [done|]. split; [done|]. split.
    + intros name Hname. by rewrite Hfr2, Hfr1.
    + intros p n. rewrite Hrec2, Hrec1. simpl.
      by rewrite (GetSettings_ext d d1) by (by apply Hfr1).
Qed.


(** *** Sample stores are well formed *)

Lemma ensureBlacklistTables_blacklist_ok env s s' :
  (db s !! "provider_blacklist" = None ∨ blacklist_ok (db s)) →
  ensureBlacklistTables env s = (Ok tt, s') → blacklist_ok (db s').
Proof.
  intros Hpre (c & s1 & s2 & Hc & H1 & H2 & H3)%ensureBlacklistTables_ok.
  apply db_Exec_ok in H1 as [H1 _]. apply db_Exec_ok in H2 as [H2 _].
  assert (db s1 !! "provider_blacklist" = db s !! "provider_blacklist") as E1
    by (by apply (exec_other _ _ _ _ H1)).
  assert (blacklist_ok (db s2)) as Hok2.
  { simpl in H2. rewrite E1 in H2. destruct Hpre as [Hnone|(t & Ht & Hs & Hok)].
    - rewrite Hnone in H2. injection H2 as <-. eexists. rewrite lookup_insert_eq.
      split; [done|]. split; [done|]. split; [done|]. constructor.
    - rewrite Ht in H2. injection H2 as <-. exists t. by rewrite E1. }
  clear H1 H2 E1 Hpre. revert H3. generalize defaultSettings. intros l. revert s2 Hok2.
  induction l as [|[k v] l IH]; intros s2 Hok2 H3.
  - by injection H3 as <-.
  - cbn [insertDefaults fst snd] in H3. apply bind_ok in H3 as ([] & s3 & H3 & H4).
    apply wrapped_ok, db_Exec_ok in H3 as [H3 _]. apply (IH s3); [|done].
    destruct Hok2 as (t & Ht & Hs & Hok). exists t.
    by rewrite (exec_other _ _ _ _ H3).
Qed.

Lemma ready_db_ok : blacklist_ok Sample.ready_db.
Proof.
  apply (ensureBlacklistTables_blacklist_ok Sample.env Sample.fresh); [by left|].
  vm_compute. reflexivity.
Qed.

Lemma db_of_run_ok cs d :
  blacklist_ok d →
  blacklist_ok (Sample.db_of (run Sample.backoff Sample.maxLevel Sample.maxRetries d cs)).
Proof.
  intros Hok. destruct (run_spec Sample.backoff Sample.maxLevel Sample.maxRetries cs d Hok)
    as (d' & -> & Hok' & _). done.
Qed.

Lemma blacklisted_db_ok : blacklist_ok Sample.blacklisted_db.
Proof. apply db_of_run_ok, ready_db_ok. Qed.

Lemma exec_blacklist_ok d q d' : blacklist_ok d → exec d q = Ok d' → blacklist_ok d'.
Proof.
  intros (t & Ht & Hs & Hok) He.
  destruct (exec_table d q d' _ t He Ht) as (t' & Ht' & Hs' & Hok').
  exists t'. split; [done|]. split; [congruence|auto].
Qed.

Lemma switched_off_db_ok : blacklist_ok Sample.switched_off_db.
Proof.
  assert (exec Sample.blacklisted_db
            (Update "app_settings" [("value", VText "false")]
                    [("key", VText "enable_blacklist")])
          = Ok Sample.switched_off_db) as E by (vm_compute; reflexivity).
  apply (exec_blacklist_ok _ _ _ blacklisted_db_ok E).
Qed.


(** *** The claims about the core *)

Lemma IsBlacklisted_bypass now p n d :
  enabled (GetSettings d) = false → IsBlacklisted now p n d = Ok (false, d).
Proof. intros H. unfold IsBlacklisted. by rewrite H. Qed.

Lemma enabled_false d :
  get_setting d "enable_blacklist" = Some (VText "false") →
  enabled (GetSettings d) = false.
Proof. intros H. unfold GetSettings. cbn [enabled]. by rewrite H. Qed.

(** C5. When the setting enable_blacklist is false, [IsBlacklisted] returns
    false for every provider, at every time, whatever its record holds (and
    it leaves the store as it is). *)
Theorem IsBlacklisted_disabled now p n d :
  get_setting d "enable_blacklist" = Some (VText "false") →
  IsBlacklisted now p n d = Ok (false, d).
Proof. intros H. by apply IsBlacklisted_bypass, enabled_false. Qed.

Lemma IsBlacklisted_disabled_witness :
  record_of Sample.switched_off_db "claude" "kimi" = Some Sample.blacklisted_record ∧
  IsBlacklisted (Sample.t0 + 200) "claude" "kimi" Sample.switched_off_db
  = Ok (false, Sample.switched_off_db).
Proof.
  split; [vm_compute; reflexivity|].
  apply IsBlacklisted_disabled. vm_compute. reflexivity.
Defined.








Lemma failed_within_hour bo ml s now r :
  failed bo ml s now r = countFailure s now r ∨
  (lastDegradeHour r ≠ hour_bucket now ∧
   blacklistLevel (failed bo ml s now r) = Z.min (blacklistLevel r + 1) ml ∧
   lastDegradeHour (failed bo ml s now r) = hour_bucket now).
Proof.
  unfold failed. destruct (_ && _); [|by left].
  unfold escalate. cbn [countFailure lastDegradeHour blacklistLevel].
  destruct (Z.eqb_spec (lastDegradeHour r) (hour_bucket now)); [by left|right]. done.
Qed.

Lemma hour_guard_step bo ml s p n h l0 o c :
  hour_bucket (call_time c) = h →
  within_hour h l0 o → within_hour h l0 (next_record bo ml s p n o c).
Proof.
  intros Hh Hin. destruct c as [now p' n'|now p' n'|now p' n']; cbn [next_record call_time] in *.
  - destruct (bool_decide ((p', n') = (p, n))); [|done].
    set (r0 := default (healthy_record p n) o).
    assert (from_option blacklistLevel 0 o = blacklistLevel r0) as Hl by (by destruct o).
    destruct (failed_within_hour bo ml s now r0) as [->|(Hne & Hlvl & Hhour)].
    + destruct Hin as [Hin|(r & -> & Hle & Hg)].
      * left. simpl. by rewrite <- Hl.
      * right. eexists. split; [done|]. done.
    + destruct Hin as [Hin|(r & -> & Hle & Hg)].
      * right. eexists. split; [done|]. rewrite Hlvl, Hhour, <- Hl, Hin. lia.
      * subst r0. simpl in Hne. congruence.
  - done.
  - destruct (bool_decide ((p', n') = (p, n))); [|done].
    destruct Hin as [Hin|(r & -> & Hle & Hg)].
    + left. destruct o as [r|]; [|done]. simpl in *. by destruct (_ && _).
    + right. simpl. eexists. split; [done|]. by destruct (_ && _).
Qed.

Lemma hour_guard_run bo ml s p n h l0 cs o :
  Forall (λ c, hour_bucket (call_time c) = h) cs →
  within_hour h l0 o → within_hour h l0 (foldl (next_record bo ml s p n) o cs).
Proof.
  intros Hcs. revert o. induction Hcs as [|c cs Hc _ IH]; intros o Ho; [done|].
  simpl. by apply IH, hour_guard_step.
Qed.

(** C7. Whatever the calls made within one calendar hour, and however many
    of them are failures, they all run and the blacklist level of a provider
    ends at most one above the level it had when the hour began. *)
Theorem hour_guard bo ml mr d p n h cs :
  blacklist_ok d →
  Forall (λ c, hour_bucket (call_time c) = h) cs →
  ∃ d', run bo ml mr d cs = Ok d' ∧ level_of d' p n ≤ level_of d p n + 1.
Proof.
  intros Hok Hcs. destruct (run_spec bo ml mr cs d Hok) as (d' & Hrun & _ & _ & Hrec).
  exists d'. split; [done|]. unfold level_of. rewrite Hrec.
  destruct (hour_guard_run bo ml (GetSettings d) p n h
              (from_option blacklistLevel 0 (record_of d p n)) cs (record_of d p n) Hcs)
    as [Hl|(r & -> & Hle & _)]; [by left| |].
  - destruct (foldl _ _ _), (record_of d p n); simpl in *; lia.
  - by destruct (record_of d p n).
Qed.

Lemma hour_guard_witness :
  ∃ d', run Sample.backoff Sample.maxLevel Sample.maxRetries
            Sample.ready_db Sample.many_failures = Ok d' ∧
        level_of d' "claude" "kimi" ≤ level_of Sample.ready_db "claude" "kimi" + 1.
Proof.
  apply (hour_guard _ _ _ _ _ _ 500000).
  - exact ready_db_ok.
  - repeat constructor.
Defined.


(** C8, as amended. While blacklisting is enabled, the first [IsBlacklisted]
    call at a time [now ≥ blacklistedUntil] returns false, clears
    blacklistedAt and blacklistedUntil, sets autoRecovered and
    lastRecoveredAt = now, and leaves blacklistLevel (and every other field)
    as it was; every later [IsBlacklisted] call returns false and changes
    nothing. *)
Theorem lazy_recovery now p n d r u :
  blacklist_ok d →
  enabled (GetSettings d) = true →
  record_of d p n = Some r →
  blacklistedUntil r = Some u →
  u ≤ now →
  ∃ d' r',
    IsBlacklisted now p n d = Ok (false, d') ∧
    record_of d' p n = Some r' ∧
    r' = recovered now r ∧
    blacklistedAt r' = None ∧ blacklistedUntil r' = None ∧
    autoRecovered r' = true ∧ lastRecoveredAt r' = Some now ∧
    blacklistLevel r' = blacklistLevel r ∧
    ∀ later, IsBlacklisted later p n d' = Ok (false, d').
Proof.
  intros Hok Hen Hrec Hu Hle.
  destruct (IsBlacklisted_spec now p n d Hok) as (d' & Hcall & Hok' & Hfr & Hrec' & _ & _).
  rewrite Hen, Hrec in Hcall, Hrec'. simpl in Hcall, Hrec'.
  unfold currently_blacklisted, expired in Hcall, Hrec'. rewrite Hu in Hcall, Hrec'.
  assert ((now <? u) = false) as Hlt by lia. assert ((u <=? now) = true) as Hge by lia.
  rewrite Hlt in Hcall. rewrite Hge in Hrec'.
  exists d', (recovered now r). repeat split; try done.
  intros later.
  destruct (IsBlacklisted_spec later p n d' Hok') as (d2 & Hcall2 & _ & _ & _ & _ & Hsame).
  rewrite Hrec' in Hcall2, Hsame. simpl in Hcall2, Hsame.
  rewrite andb_false_r in Hcall2, Hsame. by rewrite Hcall2, Hsame.
Qed.

Lemma lazy_recovery_witness :
  ∃ d' r',
    IsBlacklisted (Sample.t0 + 1980) "claude" "kimi" Sample.blacklisted_db = Ok (false, d') ∧
    record_of d' "claude" "kimi" = Some r' ∧
    r' = recovered (Sample.t0 + 1980) Sample.blacklisted_record ∧
    blacklistedAt r' = None ∧ blacklistedUntil r' = None ∧
    autoRecovered r' = true ∧ lastRecoveredAt r' = Some (Sample.t0 + 1980) ∧
    blacklistLevel r' = 1 ∧
    ∀ later, IsBlacklisted later "claude" "kimi" d' = Ok (false, d').
Proof.
  apply (lazy_recovery _ _ _ _ Sample.blacklisted_record (Sample.t0 + 1980)).
  - exact blacklisted_db_ok.
  - vm_compute. reflexivity.
  - vm_compute. reflexivity.
  - reflexivity.
  - lia.
Defined.

(** C8 as stated fails: with blacklisting switched off, [IsBlacklisted] at a
    time past blacklistedUntil returns false without recovering the record. *)
Lemma lazy_recovery_counterexample :
  blacklist_ok Sample.switched_off_db ∧
  record_of Sample.switched_off_db "claude" "kimi" = Some Sample.blacklisted_record ∧
  blacklistedUntil Sample.blacklisted_record = Some (Sample.t0 + 1980) ∧
  Sample.t0 + 1980 ≤ Sample.t0 + 5000 ∧
  ¬ ∃ d' r',
      IsBlacklisted (Sample.t0 + 5000) "claude" "kimi" Sample.switched_off_db
        = Ok (false, d') ∧
      record_of d' "claude" "kimi" = Some r' ∧
      blacklistedUntil r' = None ∧ autoRecovered r' = true.
Proof.
  split; [exact switched_off_db_ok|]. split; [vm_compute; reflexivity|].
  split; [reflexivity|]. split; [lia|].
  intros (d' & r' & Hcall & Hrec & Hu & _).
  rewrite IsBlacklisted_bypass in Hcall by (vm_compute; reflexivity).
  pose proof (f_equal (λ o, match o with Ok x => x.2 | _ => d' end) Hcall) as Hd.
  cbv beta iota in Hd. cbn [snd] in Hd. rewrite <- Hd in Hrec.
  vm_compute in Hrec. injection Hrec as <-. clear -Hu. discriminate Hu.
Qed.

(** C9. While a provider is blacklisted, [RecordSuccess] returns without
    changing the store: its record, and so its blacklistedUntil, stay as
    they were. *)
Theorem success_ignored_while_blacklisted now p n d r :
  record_of d p n = Some r →
  currently_blacklisted now r = true →
  ∃ d', RecordSuccess now p n d = Ok d' ∧ d' = d ∧ record_of d' p n = Some r.
Proof.
  intros Hrec Hb. exists d. unfold RecordSuccess. unfold record_of in Hrec.
  destruct (load d p n) as [found| |] eqn:Hl; [|done..]. subst found.
  cbn [mbind outcome_bind]. rewrite Hb. repeat split.
  unfold record_of. by rewrite Hl.
Qed.

Lemma success_ignored_witness :
  ∃ d', RecordSuccess (Sample.t0 + 600) "claude" "kimi" Sample.blacklisted_db = Ok d' ∧
        d' = Sample.blacklisted_db ∧
        record_of d' "claude" "kimi" = Some Sample.blacklisted_record.
Proof.
  apply success_ignored_while_blacklisted; vm_compute; reflexivity.
Defined.

(** *** One record per provider *)

Lemma reachable_blacklist_ok d : reachable d → blacklist_ok d.
Proof.
  induction 1 as [env s s' Hnone Hrun|env s s' _ IH Hrun|d q d' _ IH He
                 |bo ml mr d c d' _ IH Hs].
  - apply (ensureBlacklistTables_blacklist_ok env s); auto.
  - apply (ensureBlacklistTables_blacklist_ok env s); auto.
  - by apply (exec_blacklist_ok d q).
  - destruct (step_spec bo ml mr d c IH) as (d2 & Hs2 & Hok2 & _). congruence.
Qed.

(** C2. In every reachable database file, [provider_blacklist] holds at most
    one row per (platform, provider_name): two rows at different positions
    differ in platform or in provider_name, and inserting a pair that is
    already there is rejected: a plain INSERT returns an error, and if the
    statement succeeds at all (INSERT OR IGNORE) the table has the
    definition and the rows it had, only its AUTOINCREMENT counter having
    moved on, and no other table is touched. *)
Theorem one_record_per_provider d :
  reachable d →
  ∃ t, d !! "provider_blacklist" = Some t ∧
       (∀ i j r1 r2,
          tbl_rows t !! i = Some r1 → tbl_rows t !! j = Some r2 → i ≠ j →
          col r1 "platform" ≠ col r2 "platform" ∨
          col r1 "provider_name" ≠ col r2 "provider_name") ∧
       (∀ oc p n r0,
          r0 ∈ tbl_rows t →
          col r0 "platform" = VText p → col r0 "provider_name" = VText n →
          (oc = OrAbort → is_err (exec d (insertRecordSQL oc p n)) = true) ∧
          ∀ d', exec d (insertRecordSQL oc p n) = Ok d' →
                ∃ t', d' = <["provider_blacklist" := t']> d ∧ same_contents t t').
Proof.
  intros (t & Ht & Hs & Hu & Hall)%reachable_blacklist_ok. rewrite Hs in Hu, Hall.
  exists t. split; [done|]. split.
  - intros i j r1 r2 Hi Hj Hij.
    pose proof (rows_unique_lookup _ _ i j r1 r2 Hu Hi Hj Hij) as Hc.
    rewrite collides_blacklist in Hc. apply orb_false_elim in Hc as [_ Hc].
    rewrite Forall_forall in Hall.
    destruct (Hall r1) as [[Hp Hn]%notnull_blacklist _];
      [by apply list_elem_of_lookup_2 in Hi|].
    destruct (decide (col r1 "platform" = col r2 "platform")) as [E1|]; [|by left].
    destruct (decide (col r1 "provider_name" = col r2 "provider_name")) as [E2|]; [|by right].
    rewrite !bool_decide_eq_true_2 in Hc by done.
    by destruct (col r1 "platform"), (col r1 "provider_name").
  - intros oc p n r0 Hr0 Hp Hn. rewrite (insert_record_exec d t oc p n Ht Hs).
    assert (existsb (matches (key_cond p n)) (tbl_rows t) = true) as ->.
    { apply existsb_exists. exists r0. split; [by apply list_elem_of_In|].
      by apply matches_key_cond. }
    split; [by intros ->|]. intros d' Hd'. destruct oc; [discriminate Hd'|].
    injection Hd' as <-. eexists. split; [done|].
    unfold same_contents, next_rowid. cbn [tbl_schema tbl_rows tbl_seq].
    repeat split. lia.
Qed.

Lemma one_record_witness :
  is_err (exec Sample.one_record_db (insertRecordSQL OrAbort "claude" "kimi")) = true.
Proof.
  assert (reachable Sample.one_record_db) as Hreach.
  { apply (reachable_exec Sample.ready_db (insertRecordSQL OrAbort "claude" "kimi")).
    - apply (reachable_boot Sample.env Sample.fresh); [reflexivity|].
      vm_compute. reflexivity.
    - vm_compute. reflexivity. }
  destruct (one_record_per_provider _ Hreach) as (t & Ht & _ & Hdup).
  unfold Sample.one_record_db in Ht. rewrite lookup_insert_eq in Ht. injection Ht as <-.
  apply (Hdup OrAbort "claude" "kimi"
           (blacklist_row Sample.empty_blacklist (VText "claude") (VText "kimi"))).
  - apply list_elem_of_here.
  - reflexivity.
  - reflexivity.
  - reflexivity.
Defined.

End BlacklistFacts.

(** ** The bootstrap as a whole *)

Module BootFacts.
Import Sql Database Blacklist Props BootProps SqlFacts DatabaseFacts BlacklistFacts.

(** *** What ensureBlacklistTables leaves alone *)

Lemma only_blacklist_tables_refl d : only_blacklist_tables d d.
Proof. by split. Qed.

Lemma only_blacklist_tables_trans d1 d2 d3 :
  only_blacklist_tables d1 d2 → only_blacklist_tables d2 d3 → only_blacklist_tables d1 d3.
Proof.
  intros [H1 H1'] [H2 H2']. split.
  - intros name Ha Hb. by rewrite H2, H1.
  - intros t Ht. auto.
Qed.

Lemma create_existing d name s t :
  d !! name = Some t → exec d (CreateTableIfNotExists name s) = Ok d.
Proof. intros Ht. simpl. by rewrite Ht. Qed.

(** X1. Whatever its outcome, [ensureBlacklistTables] changes no table other
    than app_settings and provider_blacklist, and a provider_blacklist table
    that already exists is left exactly as it is. *)
Theorem ensureBlacklistTables_frame env s :
  only_blacklist_tables (db s) (db (ensureBlacklistTables env s).2).
Proof.
  apply (moves_ensureBlacklistTables only_blacklist_tables).
  - apply only_blacklist_tables_refl.
  - apply only_blacklist_tables_trans.
  - intros d d' He. split.
    + intros name Ha _. by apply (exec_other _ _ _ _ He).
    + intros t Ht. by rewrite (exec_other _ _ _ _ He).
  - intros d d' He. split.
    + intros name _ Hb. by apply (exec_other _ _ _ _ He).
    + intros t Ht. unfold createBlacklistSQL in He.
      rewrite (create_existing _ _ _ _ Ht) in He. by injection He as <-.
  - intros k v d d' _ He. split.
    + intros name Ha _. by apply (exec_other _ _ _ _ He).
    + intros t Ht. by rewrite (exec_other _ _ _ _ He).
Qed.

Lemma extends_refl d : extends d d.
Proof. intros name t Ht. exists t. by repeat split. Qed.

Lemma extends_trans d1 d2 d3 : extends d1 d2 → extends d2 d3 → extends d1 d3.
Proof.
  intros H1 H2 name t Ht.
  destruct (H1 name t Ht) as (t2 & Ht2 & Hs2 & Hp2).
  destruct (H2 name t2 Ht2) as (t3 & Ht3 & Hs3 & Hp3).
  exists t3. split; [done|]. split; [congruence|]. by etrans.
Qed.

Lemma insert_into_extends oc t cols vals t' :
  insert_into oc t cols vals = Ok t' →
  tbl_schema t' = tbl_schema t ∧ tbl_rows t `prefix_of` tbl_rows t'.
Proof.
  unfold insert_into. intros H.
  destruct (negb (length cols =? length vals)%nat); [done|].
  destruct (negb (known_cols _ _)); [done|].
  destruct (negb (rowid_ok _ _)); [done|].
  destruct (notnull_ok _ _ && negb (conflicts _ _ _)).
  - injection H as <-. simpl. split; [done|]. by apply prefix_app_r.
  - destruct oc; [done|]. by injection H as <-.
Qed.

(** CREATE TABLE IF NOT EXISTS and INSERT never remove or change a row. *)
Lemma exec_extends d q d' :
  (∀ name sets cond, q ≠ Update name sets cond) → exec d q = Ok d' → extends d d'.
Proof.
  intros Hq He name t Ht. destruct (decide (name = stmt_table q)) as [->|Hn].
  2: { exists t. by rewrite (exec_other _ _ _ _ He Hn). }
  destruct q as [n s|oc n cols vals|n sets cond]; simpl in *.
  - rewrite Ht in He. injection He as <-. exists t. by repeat split.
  - rewrite Ht in He. destruct (insert_into _ _ _ _) as [t'| |] eqn:E; [|done..].
    injection He as <-. exists t'. rewrite lookup_insert_eq.
    split; [done|]. by apply insert_into_extends in E.
  - by destruct (Hq n sets cond).
Qed.

(** X2. Whatever its outcome, [ensureBlacklistTables] keeps every existing
    table's definition (no migration) and every existing row, in place and
    unchanged; rows are only appended. *)
Theorem ensureBlacklistTables_extends env s :
  extends (db s) (db (ensureBlacklistTables env s).2).
Proof.
  apply (moves_ensureBlacklistTables extends).
  - apply extends_refl.
  - apply extends_trans.
  - intros d d'. by apply exec_extends.
  - intros d d'. by apply exec_extends.
  - intros k v d d' _. by apply exec_extends.
Qed.


(** *** Success, failure and retry *)

Lemma db_Exec_no_fault_ok c q s d' :
  no_fault s → exec (db s) q = Ok d' →
  ∃ s', db_Exec (Some c) q s = (Ok tt, s') ∧ db s' = d' ∧ no_fault s' ∧
        stdout s' = stdout s.
Proof.
  intros Hio He. unfold db_Exec, bind, round_trip, no_fault in *.
  destruct (io s) as [|[e|] rest] eqn:E.
  - rewrite He. eexists. split; [done|]. simpl. by rewrite E.
  - inversion Hio; subst. discriminate.
  - inversion Hio; subst. simpl. rewrite He. eexists. split; [done|]. done.
Qed.

Lemma db_Exec_err h q s e s' :
  db_Exec h q s = (Err e, s') → db s' = db s ∧ stdout s' = stdout s.
Proof.
  destruct h as [c|]; [|done]. unfold db_Exec, bind.
  pose proof (round_trip_db s) as [Hd Ho].
  destruct (round_trip s) as [[[]|e0|] s1]; simpl in *; [|by intros [= _ <-]|done].
  destruct (exec (db s1) q); [done| |done]. by intros [= _ <-].
Qed.

Lemma wrapped_err {A} c (m : M A) s err s' :
  wrapped c m s = (Err err, s') → ∃ e, m s = (Err e, s') ∧ err = ErrWrap c e.
Proof.
  unfold wrapped. destruct (m s) as [[a|e|] s1]; simpl; intros [= <- <-] || done.
  eauto.
Qed.

Lemma bind_err {A B} (m : M A) (k : A → M B) s err s' :
  bind m k s = (Err err, s') →
  m s = (Err err, s') ∨ ∃ a s1, m s = (Ok a, s1) ∧ k a s1 = (Err err, s').
Proof.
  unfold bind. destruct (m s) as [[a|e|] s1]; intros H;
    [right; eauto|left; by injection H as -> ->|discriminate H].
Qed.

Lemma default_of_defaultSettings k v :
  (k, v) ∈ defaultSettings → default_of defaultSettings k = Some v.
Proof.
  unfold defaultSettings. intros Hin.
  repeat (apply elem_of_cons in Hin as [[= -> ->]|Hin]; [done|]).
  by apply elem_of_nil in Hin.
Qed.

Lemma seeded_refl d : seeded d d.
Proof. intros k. by left. Qed.

Lemma seeded_trans d1 d2 d3 : seeded d1 d2 → seeded d2 d3 → seeded d1 d3.
Proof.
  intros H1 H2 k. destruct (H1 k) as [E1|(N1 & v1 & Hv1 & E1)],
    (H2 k) as [E2|(N2 & v2 & Hv2 & E2)].
  - left. congruence.
  - right. split; [congruence|]. eauto.
  - right. split; [done|]. exists v1. split; [done|]. congruence.
  - congruence.
Qed.

(** Each statement of [ensureBlacklistTables] keeps app_settings the table
    the code defines, and gives a setting a value only if it had none. *)
Lemma create_settings_seeded d d' :
  settings_table_ok d → exec d createAppSettingsSQL = Ok d' →
  settings_table_ok d' ∧ seeded d d'.
Proof.
  intros Hok He. destruct (create_settings_spec d d' Hok He) as ((t & Ht & Hs) & Hget & _).
  split.
  - intros t' Ht'. congruence.
  - intros k. left. apply Hget.
Qed.

Lemma create_blacklist_seeded d d' :
  settings_table_ok d → exec d createBlacklistSQL = Ok d' →
  settings_table_ok d' ∧ seeded d d'.
Proof.
  intros Hok He.
  assert (d' !! "app_settings" = d !! "app_settings") as E
    by (by apply (exec_other _ _ _ _ He)).
  split.
  - intros t. rewrite E. apply Hok.
  - intros k. left. by apply get_setting_ext.
Qed.

Lemma insert_default_seeded k v d d' :
  (k, v) ∈ defaultSettings →
  settings_table_ok d → exec d (insertDefaultSQL k v) = Ok d' →
  settings_table_ok d' ∧ seeded d d'.
Proof.
  intros Hin Hok He.
  destruct (d !! "app_settings") as [t|] eqn:Ht; [|by simpl in He; rewrite Ht in He].
  destruct (insert_default_spec d t k v Ht (Hok t Ht))
    as (d2 & t2 & He2 & Ht2 & Hs2 & _ & Hk & Hne & _).
  rewrite He in He2. injection He2 as <-. split.
  - intros t' Ht'. congruence.
  - intros k'. destruct (decide (k' = k)) as [->|Hkk]; [|left; by apply Hne].
    rewrite Hk. destruct (get_setting d k) as [x|]; [by left|right].
    split; [done|]. exists v. split; [by apply default_of_defaultSettings|done].
Qed.

Lemma ensureBlacklistTables_seeded env s :
  settings_table_ok (db s) →
  settings_table_ok (db (ensureBlacklistTables env s).2) ∧
  seeded (db s) (db (ensureBlacklistTables env s).2).
Proof.
  apply (moves_ensureBlacklistTables
           (λ d d', settings_table_ok d → settings_table_ok d' ∧ seeded d d')).
  - intros d Hok. split; [done|apply seeded_refl].
  - intros d1 d2 d3 H1 H2 Hok. destruct (H1 Hok) as [Hok2 Hs12].
    destruct (H2 Hok2) as [Hok3 Hs23]. split; [done|]. by apply (seeded_trans d1 d2).
  - intros d d' He Hok. by apply create_settings_seeded.
  - intros d d' He Hok. by apply create_blacklist_seeded.
  - intros k v d d' Hin He Hok. by apply (insert_default_seeded k v).
Qed.

Lemma insertDefaults_no_fault c l s :
  no_fault s →
  (∃ t, db s !! "app_settings" = Some t ∧ tbl_schema t = app_settings_schema) →
  ∃ s', insertDefaults (Some c) l s = (Ok tt, s') ∧ no_fault s'.
Proof.
  revert s. induction l as [|[k v] l IH]; intros s Hio (t & Ht & Hs).
  - by exists s.
  - destruct (insert_default_spec (db s) t k v Ht Hs) as (d' & t' & He & Ht' & Hs' & _).
    destruct (db_Exec_no_fault_ok c _ s d' Hio He) as (s1 & Hx & Hd & Hio1 & _).
    destruct (IH s1 Hio1) as (s2 & Hrest & Hio2); [rewrite Hd; eauto|].
    exists s2. cbn [insertDefaults fst snd]. unfold bind, wrapped, wrap.
    rewrite Hx. cbv beta iota zeta. by rewrite Hrest.
Qed.

Lemma ensureBlacklistTables_no_fault env c s :
  xdb_DB env "default" = Ok (Some c) →
  settings_table_ok (db s) →
  no_fault s →
  ∃ s', ensureBlacklistTables env s = (Ok tt, s') ∧ no_fault s'.
Proof.
  intros Hc Hok Hio. unfold ensureBlacklistTables. rewrite Hc.
  assert (∃ d1, exec (db s) createAppSettingsSQL = Ok d1) as [d1 He1]
    by (simpl; destruct (db s !! "app_settings"); eauto).
  destruct (db_Exec_no_fault_ok c _ s d1 Hio He1) as (s1 & Hx1 & Hd1 & Hio1 & _).
  assert (∃ d2, exec (db s1) createBlacklistSQL = Ok d2) as [d2 He2]
    by (simpl; destruct (db s1 !! "provider_blacklist"); eauto).
  destruct (db_Exec_no_fault_ok c _ s1 d2 Hio1 He2) as (s2 & Hx2 & Hd2 & Hio2 & _).
  destruct (create_settings_spec _ _ Hok He1) as ((t & Ht & Hs) & _).
  destruct (insertDefaults_no_fault c defaultSettings s2 Hio2) as (s3 & Hx3 & Hio3).
  { exists t. rewrite Hd2, (exec_other _ _ _ _ He2) by done. by rewrite Hd1. }
  exists s3. rewrite bind_pure_ok. unfold bind, wrapped, wrap.
  rewrite Hx1. cbv beta iota zeta. rewrite Hx2. cbv beta iota zeta. by rewrite Hx3.
Qed.

(** *** Rowids used up by a run *)

Lemma max_of_nonneg c (rows : list row) : 0 ≤ max_of c rows.
Proof. unfold max_of. induction rows as [|r rows IH]; simpl; lia. Qed.

Lemma max_of_app c (l1 l2 : list row) :
  max_of c (l1 ++ l2) = Z.max (max_of c l1) (max_of c l2).
Proof.
  pose proof (max_of_nonneg c l2) as H2. unfold max_of in *.
  induction l1 as [|r l1 IH]; simpl; [lia|]. rewrite IH. lia.
Qed.

Lemma uses_rowids_refl n s : 0 ≤ n → uses_rowids n s s.
Proof. intros Hn Hok. split; [done|lia]. Qed.

Lemma moves_bind_rowids {A B} n1 n2 (m : M A) (k : A → M B) :
  0 ≤ n2 → moves (uses_rowids n1) m → (∀ a, moves (uses_rowids n2) (k a)) →
  moves (uses_rowids (n1 + n2)) (bind m k).
Proof.
  intros Hn Hm Hk s Hok. unfold bind. destruct (Hm s Hok) as [Hok1 H1].
  destruct (m s) as [[a|e|] s1]; cbn [fst snd] in *; [|split; [done|lia]..].
  destruct (Hk a s1 Hok1) as [Hok2 H2]. split; [done|lia].
Qed.

Lemma moves_db_Exec_rowids n h q :
  0 ≤ n →
  (∀ d d', settings_table_ok d → exec d q = Ok d' →
           settings_table_ok d' ∧
           rowid_top d' "app_settings" ≤ rowid_top d "app_settings" + n) →
  moves (uses_rowids n) (db_Exec h q).
Proof.
  intros Hn Hq s Hok. destruct (db_Exec_cases h q s) as [_ [->|He]].
  - split; [done|lia].
  - by apply Hq.
Qed.

Lemma create_top d name sch d' :
  settings_table_ok d → (name = "app_settings" → sch = app_settings_schema) →
  exec d (CreateTableIfNotExists name sch) = Ok d' →
  settings_table_ok d' ∧ rowid_top d' "app_settings" ≤ rowid_top d "app_settings" + 0.
Proof.
  intros Hok Hsch He. cbn [exec] in He.
  destruct (d !! name) as [t|] eqn:Ht; injection He as <-; [split; [done|lia]|].
  destruct (decide (name = "app_settings")) as [->|Hne].
  - split.
    + intros t. rewrite lookup_insert_eq. intros [= <-]. by apply Hsch.
    + unfold rowid_top. rewrite lookup_insert_eq, Ht. simpl. lia.
  - split.
    + intros t. rewrite lookup_insert_ne by done. apply Hok.
    + unfold rowid_top. rewrite lookup_insert_ne by done. lia.
Qed.

Lemma insert_default_top k v d d' :
  settings_table_ok d → exec d (insertDefaultSQL k v) = Ok d' →
  settings_table_ok d' ∧ rowid_top d' "app_settings" ≤ rowid_top d "app_settings" + 1.
Proof.
  intros Hok He. destruct (d !! "app_settings") as [t|] eqn:Ht.
  - rewrite (insert_default_exec d t k v Ht (Hok t Ht)) in He. injection He as <-. split.
    + intros t'. rewrite lookup_insert_eq. intros [= <-]. cbn [tbl_schema]. by apply Hok.
    + unfold rowid_top. rewrite lookup_insert_eq, Ht. cbn [tbl_rows tbl_seq].
      pose proof (max_of_nonneg "id" (tbl_rows t)).
      destruct (existsb _ _); [unfold next_rowid; lia|].
      rewrite max_of_app. unfold max_of at 2. cbn [foldr].
      rewrite setting_row_id. cbn [as_int]. unfold next_rowid. lia.
  - unfold insertDefaultSQL in He. cbn [exec] in He. by rewrite Ht in He.
Qed.

Lemma insertDefaults_rowids h l :
  moves (uses_rowids (Z.of_nat (length l))) (insertDefaults h l).
Proof.
  induction l as [|[k v] l IH]; cbn [insertDefaults fst snd].
  - intros s. by apply uses_rowids_refl.
  - replace (Z.of_nat (length ((k, v) :: l))) with (1 + Z.of_nat (length l))
      by (cbn [length]; lia).
    apply moves_bind_rowids; [lia| |by intros _].
    apply moves_wrapped, moves_db_Exec_rowids; [lia|]. intros d d'.
    apply insert_default_top.
Qed.

(** A run of [ensureBlacklistTables] uses up at most three rowids of
    app_settings, one for each default, whatever its outcome. *)
Lemma ensureBlacklistTables_rowids env : moves (uses_rowids 3) (ensureBlacklistTables env).
Proof.
  unfold ensureBlacklistTables.
  apply (moves_bind_rowids 0 3); [lia| |].
  { apply moves_wrapped, moves_pure_call. intros s. by apply uses_rowids_refl. }
  intros h. apply (moves_bind_rowids 0 3); [lia| |].
  { apply moves_wrapped, moves_db_Exec_rowids; [lia|]. intros d d' Hok.
    by apply create_top. }
  intros _. apply (moves_bind_rowids 0 3); [lia| |].
  { apply moves_wrapped, moves_db_Exec_rowids; [lia|]. intros d d' Hok.
    by apply create_top. }
  intros _. apply (insertDefaults_rowids h defaultSettings).
Qed.

(** X3. With a database handle, no failing driver round trip, and an
    app_settings table that is absent or the one this code defines and has
    three rowids left, [ensureBlacklistTables] returns nil, and no rowid
    past the largest one was needed. *)
Theorem ensureBlacklistTables_succeeds env c s :
  xdb_DB env "default" = Ok (Some c) →
  settings_table_ok (db s) →
  rowid_room 3 (db s) "app_settings" →
  no_fault s →
  ∃ s', ensureBlacklistTables env s = (Ok tt, s') ∧ no_fault s' ∧
        rowid_room 0 (db s') "app_settings".
Proof.
  intros Hc Hok Hroom Hio.
  destruct (ensureBlacklistTables_no_fault env c s Hc Hok Hio) as (s' & Hrun & Hio').
  exists s'. split; [done|]. split; [done|].
  destruct (ensureBlacklistTables_rowids env s Hok) as [_ Htop].
  rewrite Hrun in Htop. cbn [snd] in Htop. unfold rowid_room in *. lia.
Qed.

Lemma succeeds_witness :
  ∃ s', ensureBlacklistTables Sample.env Sample.tuned = (Ok tt, s') ∧ no_fault s' ∧
        rowid_room 0 (db s') "app_settings".
Proof.
  apply (ensureBlacklistTables_succeeds Sample.env (Conn "default")).
  - reflexivity.
  - intros t Ht. vm_compute in Ht. by inversion Ht.
  - vm_compute. by intros [=].
  - constructor.
Defined.


(** X4. A run of [ensureBlacklistTables] that failed part-way is repaired by
    running it again: on the file any earlier run left behind, a run without
    driver failures returns nil, and afterwards each default key holds the
    value it had before the first run, or its default if it had none.
    app_settings is absent or the table this code defines before the first
    run, with six rowids left, three for each run. *)
Theorem ensureBlacklistTables_retry env c s s2 :
  xdb_DB env "default" = Ok (Some c) →
  settings_table_ok (db s) →
  rowid_room 6 (db s) "app_settings" →
  db s2 = db (ensureBlacklistTables env s).2 →
  no_fault s2 →
  ∃ s3, ensureBlacklistTables env s2 = (Ok tt, s3) ∧
        rowid_room 0 (db s3) "app_settings" ∧
        ∀ k v, (k, v) ∈ defaultSettings →
               get_setting (db s3) k = Some (default (VText v) (get_setting (db s) k)).
Proof.
  intros Hc Hok Hroom Hdb Hio.
  destruct (ensureBlacklistTables_seeded env s Hok) as [Hok1 Hseed].
  destruct (ensureBlacklistTables_rowids env s Hok) as [_ Htop1].
  rewrite <- Hdb in Hok1, Hseed, Htop1.
  destruct (ensureBlacklistTables_no_fault env c s2 Hc Hok1 Hio) as (s3 & Hrun & _).
  destruct (ensureBlacklistTables_rowids env s2 Hok1) as [_ Htop2].
  rewrite Hrun in Htop2. cbn [snd] in Htop2.
  exists s3. split; [done|]. split; [unfold rowid_room in *; lia|]. intros k v Hin.
  destruct (ensureBlacklistTables_tables env s2 s3 Hok1 Hrun) as (_ & _ & Hget).
  rewrite Hget, (default_of_defaultSettings k v Hin).
  destruct (Hseed k) as [->|(-> & v' & Hv' & ->)]; [done|].
  rewrite (default_of_defaultSettings k v Hin) in Hv'. by injection Hv' as <-.
Qed.

Lemma retry_witness :
  is_err (ensureBlacklistTables Sample.env interrupted).1 = true ∧
  ∃ s3, ensureBlacklistTables Sample.env restarted = (Ok tt, s3) ∧
        rowid_room 0 (db s3) "app_settings" ∧
        ∀ k v, (k, v) ∈ defaultSettings →
               get_setting (db s3) k = Some (default (VText v) (get_setting (db interrupted) k)).
Proof.
  split; [vm_compute; exact eq_refl|].
  apply (ensureBlacklistTables_retry Sample.env (Conn "default") interrupted restarted).
  - reflexivity.
  - intros t Ht. vm_compute in Ht. discriminate Ht.
  - vm_compute. by intros [=].
  - reflexivity.
  - constructor.
Defined.

(** *** What a failed run reports *)

Lemma seeded_is_Some d d' k :
  seeded d d' → is_Some (get_setting d k) → is_Some (get_setting d' k).
Proof.
  intros Hs [x Hx]. destruct (Hs k) as [->|(Hn & _)]; [eauto|congruence].
Qed.

Lemma insertDefaults_seeded h l s :
  (∀ kv, kv ∈ l → kv ∈ defaultSettings) →
  settings_table_ok (db s) →
  settings_table_ok (db (insertDefaults h l s).2) ∧
  seeded (db s) (db (insertDefaults h l s).2).
Proof.
  intros Hsub.
  apply (moves_insertDefaults
           (λ d d', settings_table_ok d → settings_table_ok d' ∧ seeded d d')).
  - intros d Hok. split; [done|apply seeded_refl].
  - intros d1 d2 d3 H1 H2 Hok. destruct (H1 Hok) as [Hok2 Hs12].
    destruct (H2 Hok2) as [Hok3 Hs23]. split; [done|]. by apply (seeded_trans d1 d2).
  - intros k v d d' Hin He Hok. apply (insert_default_seeded k v); auto.
Qed.

(** A failing default loop names the key it stopped at, and the keys before
    it are in the table. *)
Lemma insertDefaults_err c l s err s' :
  (∀ kv, kv ∈ l → kv ∈ defaultSettings) →
  (∃ t, db s !! "app_settings" = Some t ∧ tbl_schema t = app_settings_schema) →
  insertDefaults (Some c) l s = (Err err, s') →
  ∃ l1 k v l2 e,
    l = (l1 ++ (k, v) :: l2)%list ∧ err = ErrWrap (insert_context k) e ∧
    ∀ k' v', (k', v') ∈ l1 → is_Some (get_setting (db s') k').
Proof.
  revert s. induction l as [|[k v] l IH]; intros s Hsub (t & Ht & Hs) Hrun; [done|].
  cbn [insertDefaults fst snd] in Hrun.
  apply bind_err in Hrun as [Hrun|([] & s1 & H1 & Hrest)].
  - apply wrapped_err in Hrun as (e & _ & ->).
    exists [], k, v, l, e. split; [done|]. split; [done|]. intros k' v' Hin.
    by apply elem_of_nil in Hin.
  - apply wrapped_ok, db_Exec_ok in H1 as [H1 _].
    destruct (insert_default_spec (db s) t k v Ht Hs)
      as (d' & t' & He & Ht' & Hs' & _ & Hk & _).
    rewrite H1 in He. injection He as <-.
    destruct (IH s1) as (l1 & k2 & v2 & l2 & e & -> & -> & Hbefore);
      [intros kv Hin; apply Hsub; by right|eauto|done|].
    exists ((k, v) :: l1), k2, v2, l2, e. split; [done|]. split; [done|].
    intros k' v' [[= -> ->]|Hin]%elem_of_cons; [|by apply (Hbefore k' v')].
    assert (settings_table_ok (db s1)) as Hok1 by (intros t1 Ht1; congruence).
    destruct (insertDefaults_seeded (Some c) (l1 ++ (k2, v2) :: l2)%list s1) as [_ Hseed];
      [intros kv Hin; apply Hsub; by right|done|].
    rewrite Hrest in Hseed. simpl in Hseed.
    apply (seeded_is_Some _ _ _ Hseed). rewrite Hk. eauto.
Qed.

(** X5. When [ensureBlacklistTables] returns an error, the error tells how
    far the run got: no handle (nothing was touched), app_settings not
    created (the file is as it was), provider_blacklist not created
    (app_settings exists), or the default of one key not inserted (both
    tables exist and the keys listed before it are in app_settings). *)
Theorem ensureBlacklistTables_error_report env s err s' :
  settings_table_ok (db s) →
  ensureBlacklistTables env s = (Err err, s') →
  (∃ e, xdb_DB env "default" = Err e ∧ err = ErrWrap "获取数据库连接失败" e ∧ s' = s) ∨
  (∃ e, err = ErrWrap "创建 app_settings 表失败" e ∧ db s' = db s) ∨
  (∃ e, err = ErrWrap "创建 provider_blacklist 表失败" e ∧
        is_Some (db s' !! "app_settings")) ∨
  (∃ l1 k v l2 e,
     defaultSettings = (l1 ++ (k, v) :: l2)%list ∧ err = ErrWrap (insert_context k) e ∧
     is_Some (db s' !! "app_settings") ∧ is_Some (db s' !! "provider_blacklist") ∧
     ∀ k' v', (k', v') ∈ l1 → is_Some (get_setting (db s') k')).
Proof.
  intros Hok Hrun. unfold ensureBlacklistTables in Hrun.
  apply bind_err in Hrun as [Hrun|(h & s0 & H0 & Hrun)].
  { left. apply wrapped_err in Hrun as (e & Hrun & ->). unfold pure_call in Hrun.
    injection Hrun as Hc <-. eauto. }
  apply wrapped_ok in H0. unfold pure_call in H0. injection H0 as Hc <-.
  destruct h as [c|]; [|done]. right.
  apply bind_err in Hrun as [Hrun|([] & s1 & H1 & Hrun)].
  { left. apply wrapped_err in Hrun as (e & Hrun & ->).
    apply db_Exec_err in Hrun as [Hd _]. eauto. }
  apply wrapped_ok, db_Exec_ok in H1 as [H1 _].
  destruct (create_settings_spec _ _ Hok H1) as ((t & Ht & Hs) & _). right.
  apply bind_err in Hrun as [Hrun|([] & s2 & H2 & Hrun)].
  { left. apply wrapped_err in Hrun as (e & Hrun & ->).
    apply db_Exec_err in Hrun as [Hd _]. exists e. split; [done|]. rewrite Hd, Ht. eauto. }
  apply wrapped_ok, db_Exec_ok in H2 as [H2 _]. right.
  assert (db s2 !! "app_settings" = Some t) as Ht2
    by (by rewrite (exec_other _ _ _ _ H2)).
  assert (is_Some (db s2 !! "provider_blacklist")) as Hb2.
  { simpl in H2. destruct (db s1 !! "provider_blacklist") eqn:E.
    - injection H2 as <-. by rewrite E.
    - injection H2 as <-. by rewrite lookup_insert_eq. }
  destruct (insertDefaults_err c defaultSettings s2 err s') as (l1 & k & v & l2 & e & Hl & -> & Hbefore);
    [done|eauto|done|].
  exists l1, k, v, l2, e. split; [done|]. split; [done|].
  pose proof (moves_insertDefaults extends (Some c) defaultSettings extends_refl extends_trans) as Hext.
  specialize (Hext (λ k v d d' _, exec_extends d (insertDefaultSQL k v) d' ltac:(done)) s2).
  rewrite Hrun in Hext. simpl in Hext.
  split; [|split; [|done]].
  - destruct (Hext _ _ Ht2) as (t' & -> & _). eauto.
  - destruct Hb2 as [b Hb]. destruct (Hext _ _ Hb) as (t' & -> & _). eauto.
Qed.

Lemma error_report_witness :
  (ensureBlacklistTables Sample.env interrupted).1
  = Err (ErrWrap (insert_context "blacklist_failure_threshold") (ErrMsg "disk I/O error")) ∧
  is_Some (get_setting (db (ensureBlacklistTables Sample.env interrupted).2) "enable_blacklist").
Proof.
  assert (settings_table_ok (db interrupted)) as Hok
    by (intros t Ht; vm_compute in Ht; discriminate Ht).
  assert (ensureBlacklistTables Sample.env interrupted
          = (Err (ErrWrap (insert_context "blacklist_failure_threshold")
                          (ErrMsg "disk I/O error")),
             (ensureBlacklistTables Sample.env interrupted).2)) as Hrun
    by (vm_compute; exact eq_refl).
  split; [by rewrite Hrun|].
  destruct (ensureBlacklistTables_error_report _ _ _ _ Hok Hrun)
    as [(e & Hc & _)|[(e & He & _)|[(e & He & _)|(l1 & k & v & l2 & e & Hl & He & _ & _ & Hbefore)]]].
  - discriminate Hc.
  - vm_compute in He. discriminate He.
  - vm_compute in He. discriminate He.
  - destruct l1 as [|kv l1].
    + injection Hl as <- <- _. vm_compute in He. discriminate He.
    + injection Hl as <- _. apply (Hbefore "enable_blacklist" "true"). by left.
Defined.


(** *** The tables after a successful run *)

(** X6. On a database file without provider_blacklist, a successful
    [ensureBlacklistTables] leaves the table the code defines, with no rows
    and no rowid handed out. *)
Theorem ensureBlacklistTables_creates_empty env s s' :
  db s !! "provider_blacklist" = None →
  ensureBlacklistTables env s = (Ok tt, s') →
  db s' !! "provider_blacklist" = Some Sample.empty_blacklist.
Proof.
  intros Hnone (c & s1 & s2 & Hc & H1 & H2 & H3)%ensureBlacklistTables_ok.
  apply db_Exec_ok in H1 as [H1 _]. apply db_Exec_ok in H2 as [H2 _].
  assert (db s2 !! "provider_blacklist" = Some Sample.empty_blacklist) as Hb.
  { simpl in H2. rewrite (exec_other _ _ _ _ H1), Hnone in H2 by done.
    injection H2 as <-. by rewrite lookup_insert_eq. }
  pose proof (moves_insertDefaults
                (λ d d', d' !! "provider_blacklist" = d !! "provider_blacklist")
                (Some c) defaultSettings) as Hmv.
  specialize (Hmv (λ d, eq_refl)). rewrite <- Hb.
  specialize (Hmv (λ d1 d2 d3 E1 E2, eq_trans E2 E1)).
  specialize (Hmv (λ k v d d' _ He, exec_other d _ d' "provider_blacklist" He ltac:(done)) s2).
  by rewrite H3 in Hmv.
Qed.

Lemma creates_empty_witness :
  db (ensureBlacklistTables Sample.env Sample.tuned).2 !! "provider_blacklist"
  = Some Sample.empty_blacklist.
Proof.
  apply (ensureBlacklistTables_creates_empty Sample.env Sample.tuned).
  - vm_compute. exact eq_refl.
  - vm_compute. exact eq_refl.
Defined.

Lemma has_key_get_setting d t k :
  d !! "app_settings" = Some t →
  existsb (has_key k) (tbl_rows t) = negb (bool_decide (get_setting d k = None)).
Proof.
  intros Ht. rewrite (get_setting_rows d t k Ht).
  destruct (existsb (has_key k) (tbl_rows t)) eqn:E.
  - apply filter_head_existsb in E as [r ->]. done.
  - by rewrite (filter_nil_existsb _ _ E).
Qed.

Lemma insertDefaults_added h l s s' :
  NoDup l.*1 →
  (∃ t, db s !! "app_settings" = Some t ∧ tbl_schema t = app_settings_schema) →
  insertDefaults h l s = (Ok tt, s') →
  ∃ added,
    rows_of (db s') "app_settings" = (rows_of (db s) "app_settings" ++ added)%list ∧
    map setting_of added
    = map (λ kv, (VText kv.1, VText kv.2))
          (List.filter (λ kv, bool_decide (get_setting (db s) kv.1 = None)) l).
Proof.
  revert s. induction l as [|[k v] l IH]; intros s Hnd (t & Ht & Hs) Hrun.
  - injection Hrun as <-. exists []. by rewrite app_nil_r.
  - cbn [insertDefaults fst snd] in Hrun. apply bind_ok in Hrun as ([] & s1 & H1 & Hrest).
    apply wrapped_ok, db_Exec_ok in H1 as [H1 _].
    apply NoDup_cons in Hnd as [Hk Hnd]. simpl in Hk.
    destruct (insert_default_spec (db s) t k v Ht Hs)
      as (d' & t' & He & Ht' & Hs' & _ & _ & Hne & Hsome & Hnone & _).
    rewrite H1 in He. injection He as <-.
    destruct (IH s1 Hnd ltac:(eauto) Hrest) as (added & Hrows & Hadded).
    rewrite (List.filter_ext_in
               (λ kv, bool_decide (get_setting (db s1) kv.1 = None))
               (λ kv, bool_decide (get_setting (db s) kv.1 = None))) in Hadded.
    2: { intros [k' v'] Hin%list_elem_of_In. simpl. rewrite Hne; [done|].
         intros ->. apply Hk. apply list_elem_of_fmap. by exists (k, v'). }
    unfold rows_of in Hrows |- *. rewrite Ht' in Hrows. rewrite Ht, Hrows.
    cbn [List.filter fst]. destruct (get_setting (db s) k) as [v0|] eqn:Hget.
    + rewrite bool_decide_eq_false_2 by done. exists added.
      by rewrite Hsome by eauto.
    + rewrite bool_decide_eq_true_2 by done. exists (setting_row t k v :: added).
      rewrite Hnone by done. rewrite <- app_assoc. split; [done|].
      cbn [map fst snd]. rewrite Hadded. unfold setting_of at 1.
      by rewrite setting_row_key, setting_row_value.
Qed.

Lemma defaultSettings_keys_NoDup : NoDup defaultSettings.*1.
Proof. apply (bool_decide_unpack _). vm_compute. exact I. Qed.

(** X7. On a database file where app_settings is absent or the table this
    code defines, a successful [ensureBlacklistTables] keeps the rows of
    app_settings as they are and in place, and appends after them one row
    for each default key that had no row, in the order of the defaults,
    holding that key and its default value; it adds no other row. *)
Theorem ensureBlacklistTables_added_rows env s s' :
  settings_table_ok (db s) →
  ensureBlacklistTables env s = (Ok tt, s') →
  ∃ added,
    rows_of (db s') "app_settings" = (rows_of (db s) "app_settings" ++ added)%list ∧
    map setting_of added
    = map (λ kv, (VText kv.1, VText kv.2)) (missing_defaults (db s)).
Proof.
  intros Hok (c & s1 & s2 & Hc & H1 & H2 & H3)%ensureBlacklistTables_ok.
  apply db_Exec_ok in H1 as [H1 _]. apply db_Exec_ok in H2 as [H2 _].
  destruct (create_settings_spec _ _ Hok H1) as ((t & Ht & Hs) & Hget & _).
  assert (db s2 !! "app_settings" = db s1 !! "app_settings") as E2
    by (by apply (exec_other _ _ _ _ H2)).
  destruct (insertDefaults_added _ _ _ _ defaultSettings_keys_NoDup
              ltac:(rewrite E2; eauto) H3) as (added & Hrows & Hadded).
  exists added. unfold missing_defaults.
  rewrite (List.filter_ext
             (λ kv, bool_decide (get_setting (db s2) kv.1 = None))
             (λ kv, bool_decide (get_setting (db s) kv.1 = None))) in Hadded
    by (intros kv; by rewrite (get_setting_ext _ _ _ E2), Hget).
  split; [|done]. rewrite Hrows. f_equal. unfold rows_of. rewrite E2. simpl in H1.
  destruct (db s !! "app_settings") as [t0|] eqn:E0; injection H1 as <-.
  - by rewrite E0.
  - by rewrite lookup_insert_eq.
Qed.

Lemma added_rows_witness :
  ∃ added,
    rows_of (db (ensureBlacklistTables Sample.env Sample.tuned).2) "app_settings"
    = (rows_of (db Sample.tuned) "app_settings" ++ added)%list ∧
    map setting_of added
    = [ (VText "blacklist_failure_threshold", VText "3");
        (VText "blacklist_duration_minutes", VText "30") ].
Proof.
  assert (settings_table_ok (db Sample.tuned)) as Hok
    by (intros t Ht; vm_compute in Ht; by inversion Ht).
  assert (ensureBlacklistTables Sample.env Sample.tuned
          = (Ok tt, (ensureBlacklistTables Sample.env Sample.tuned).2)) as Hrun
    by (vm_compute; exact eq_refl).
  destruct (ensureBlacklistTables_added_rows _ _ _ Hok Hrun) as (added & Hrows & Hadded).
  exists added. split; [exact Hrows|].
  rewrite Hadded. vm_compute. exact eq_refl.
Defined.


(** *** Constraints of the two tables *)

Lemma exec_settings_ok d q d' : settings_ok d → exec d q = Ok d' → settings_ok d'.
Proof.
  intros (t & Ht & Hs & Hok) He.
  destruct (exec_table d q d' _ t He Ht) as (t' & Ht' & Hs' & Hok').
  exists t'. split; [done|]. split; [congruence|auto].
Qed.

Lemma run_stmts_settings_ok qs d d' :
  settings_ok d → run_stmts d qs = Ok d' → settings_ok d'.
Proof.
  revert d. induction qs as [|q qs IH]; intros d Hok Hrun; simpl in Hrun.
  - by injection Hrun as <-.
  - destruct (exec d q) as [d1| |] eqn:E; [|done..].
    apply (IH d1); [|done]. by apply (exec_settings_ok d q).
Qed.

Lemma ensureBlacklistTables_settings_ok env s s' :
  (db s !! "app_settings" = None ∨ settings_ok (db s)) →
  ensureBlacklistTables env s = (Ok tt, s') → settings_ok (db s').
Proof.
  intros Hpre (c & s1 & s2 & Hc & H1 & H2 & H3)%ensureBlacklistTables_ok.
  apply db_Exec_ok in H1 as [H1 _]. apply db_Exec_ok in H2 as [H2 _].
  assert (settings_ok (db s1)) as Hok1.
  { simpl in H1. destruct Hpre as [Hnone|(t & Ht & Hs & Hok)].
    - rewrite Hnone in H1. injection H1 as <-. eexists. rewrite lookup_insert_eq.
      split; [done|]. split; [done|]. split; [done|]. constructor.
    - rewrite Ht in H1. injection H1 as <-. by exists t. }
  pose proof (exec_settings_ok _ _ _ Hok1 H2) as Hok2.
  pose proof (moves_insertDefaults (λ d d', settings_ok d → settings_ok d')
                (Some c) defaultSettings) as Hmv.
  specialize (Hmv (λ d H, H) (λ d1 d2 d3 H12 H23 H, H23 (H12 H))).
  specialize (Hmv (λ k v d d' _ He H, exec_settings_ok d _ d' H He) s2).
  rewrite H3 in Hmv. by apply Hmv.
Qed.

Lemma unique_sets_settings : unique_sets app_settings_schema = [ ["id"]; ["key"] ].
Proof. reflexivity. Qed.

Lemma collides_settings r1 r2 :
  collides app_settings_schema r1 r2
  = negb (is_null (col r1 "id")) && bool_decide (col r1 "id" = col r2 "id")
    || negb (is_null (col r1 "key")) && bool_decide (col r1 "key" = col r2 "key").
Proof.
  unfold collides. rewrite unique_sets_settings. simpl.
  by rewrite !andb_true_r, orb_false_r.
Qed.

Lemma notnull_settings r :
  notnull_ok app_settings_schema r = true ↔ col r "key" ≠ VNull.
Proof.
  cbn. rewrite !andb_true_r, negb_true_iff. split.
  - intros H E. by rewrite E in H.
  - by destruct (col r "key").
Qed.

(** X8. Once [ensureBlacklistTables] has created app_settings, whatever
    statements run on the file afterwards, no row of app_settings has a NULL
    key and no two rows have the same key: a key has at most one value. *)
Theorem settings_keys_unique env s s' qs d :
  db s !! "app_settings" = None →
  ensureBlacklistTables env s = (Ok tt, s') →
  run_stmts (db s') qs = Ok d →
  ∃ t, d !! "app_settings" = Some t ∧
       (∀ r, r ∈ tbl_rows t → col r "key" ≠ VNull) ∧
       (∀ i j r1 r2,
          tbl_rows t !! i = Some r1 → tbl_rows t !! j = Some r2 → i ≠ j →
          col r1 "key" ≠ col r2 "key").
Proof.
  intros Hnone Hrun Hqs.
  assert (settings_ok d) as (t & Ht & Hs & Hu & Hall).
  { apply (run_stmts_settings_ok qs (db s')); [|done].
    apply (ensureBlacklistTables_settings_ok env s); auto. }
  rewrite Hs in Hu, Hall. rewrite Forall_forall in Hall.
  exists t. split; [done|]. split.
  - intros r Hr. by destruct (Hall r Hr) as [?%notnull_settings _].
  - intros i j r1 r2 Hi Hj Hij E.
    pose proof (rows_unique_lookup _ _ i j r1 r2 Hu Hi Hj Hij) as Hc.
    rewrite collides_settings in Hc. apply orb_false_elim in Hc as [_ Hc].
    destruct (Hall r1) as [Hn%notnull_settings _];
      [by apply list_elem_of_lookup_2 in Hi|].
    rewrite bool_decide_eq_true_2 in Hc by done. by destruct (col r1 "key").
Qed.

Lemma settings_keys_witness :
  ∃ t, Sample.db_of (run_stmts Sample.ready_db settings_edits) !! "app_settings" = Some t ∧
       (∀ r, r ∈ tbl_rows t → col r "key" ≠ VNull) ∧
       (∀ i j r1 r2,
          tbl_rows t !! i = Some r1 → tbl_rows t !! j = Some r2 → i ≠ j →
          col r1 "key" ≠ col r2 "key").
Proof.
  apply (settings_keys_unique Sample.env Sample.fresh
           (ensureBlacklistTables Sample.env Sample.fresh).2 settings_edits).
  - reflexivity.
  - vm_compute. exact eq_refl.
  - vm_compute. exact eq_refl.
Defined.

(** X9. In every reachable database file, each row of provider_blacklist has
    an integer id that no other row has, and a platform and a provider_name
    that are not NULL. *)
Theorem blacklist_rows_well_formed d :
  reachable d →
  ∃ t, d !! "provider_blacklist" = Some t ∧
       (∀ r, r ∈ tbl_rows t →
             (∃ z, col r "id" = VInt z) ∧
             col r "platform" ≠ VNull ∧ col r "provider_name" ≠ VNull) ∧
       (∀ i j r1 r2,
          tbl_rows t !! i = Some r1 → tbl_rows t !! j = Some r2 → i ≠ j →
          col r1 "id" ≠ col r2 "id").
Proof.
  intros (t & Ht & Hs & Hu & Hall)%reachable_blacklist_ok. rewrite Hs in Hu, Hall.
  rewrite Forall_forall in Hall. exists t. split; [done|]. split.
  - intros r Hr. destruct (Hall r Hr) as [[Hp Hn]%notnull_blacklist Hid%rowid_blacklist].
    auto.
  - intros i j r1 r2 Hi Hj Hij E.
    pose proof (rows_unique_lookup _ _ i j r1 r2 Hu Hi Hj Hij) as Hc.
    rewrite collides_blacklist in Hc. apply orb_false_elim in Hc as [Hc _].
    destruct (Hall r1) as [_ [z Hz]%rowid_blacklist];
      [by apply list_elem_of_lookup_2 in Hi|].
    rewrite bool_decide_eq_true_2 in Hc by done. by rewrite Hz in Hc.
Qed.

Lemma blacklist_rows_witness :
  ∃ t, Sample.one_record_db !! "provider_blacklist" = Some t ∧
       (∀ r, r ∈ tbl_rows t →
             (∃ z, col r "id" = VInt z) ∧
             col r "platform" ≠ VNull ∧ col r "provider_name" ≠ VNull) ∧
       (∀ i j r1 r2,
          tbl_rows t !! i = Some r1 → tbl_rows t !! j = Some r2 → i ≠ j →
          col r1 "id" ≠ col r2 "id").
Proof.
  apply blacklist_rows_well_formed.
  apply (reachable_exec Sample.ready_db (insertRecordSQL OrAbort "claude" "kimi")).
  - apply (reachable_boot Sample.env Sample.fresh); [reflexivity|].
    vm_compute. exact eq_refl.
  - vm_compute. exact eq_refl.
Defined.

Lemma build_row_text_col t given c :
  tbl_schema t = blacklist_schema →
  c = "platform" ∨ c = "provider_name" →
  col (build_row t given) c = default VNull (given !! c).
Proof.
  intros Hs Hc. unfold build_row. rewrite Hs. cbn [foldr sch_cols blacklist_schema createBlacklistSQL col_name col_autoinc col_default andb].
  unfold col. destruct Hc as [-> | ->].
  - rewrite lookup_insert_ne by done. rewrite lookup_insert_eq.
    by destruct (given !! "platform").
  - rewrite !lookup_insert_ne by done. rewrite lookup_insert_eq.
    by destruct (given !! "provider_name").
Qed.

Lemma zip_lookup_None (cols : list string) (vals : list value) c :
  c ∉ cols → (list_to_map (zip cols vals) : row) !! c = None.
Proof.
  intros Hc. apply not_elem_of_list_to_map_1. intros Hin. apply Hc.
  apply list_elem_of_fmap in Hin as ([c' v] & -> & Hin). by apply elem_of_zip_l in Hin.
Qed.

(** X10. provider_blacklist takes no row without a platform or without a
    provider_name: such an INSERT returns an error unless it is an INSERT OR
    IGNORE, and then the table keeps its definition and its rows (only its
    AUTOINCREMENT counter may move on) and no other table is touched. *)
Theorem insert_without_identity_rejected d t oc cols vals d' :
  d !! "provider_blacklist" = Some t →
  tbl_schema t = blacklist_schema →
  "platform" ∉ cols ∨ "provider_name" ∉ cols →
  exec d (Insert oc "provider_blacklist" cols vals) = Ok d' →
  oc = OrIgnore ∧
  ∃ t', d' = <["provider_blacklist" := t']> d ∧ same_contents t t'.
Proof.
  intros Ht Hs Hmiss He. cbn [exec] in He. rewrite Ht in He. unfold insert_into in He.
  destruct (negb (length cols =? length vals)%nat); [done|].
  destruct (negb (known_cols _ _)); [done|].
  destruct (negb (rowid_ok _ _)); [done|].
  assert (notnull_ok (tbl_schema t) (build_row t (list_to_map (zip cols vals))) = false) as Hnn.
  { rewrite Hs. clear He.
    destruct (notnull_ok blacklist_schema (build_row t (list_to_map (zip cols vals))))
      eqn:E; [exfalso|reflexivity].
    apply notnull_blacklist in E as [Hp Hn]. destruct Hmiss as [Hm|Hm].
    - rewrite (build_row_text_col t _ "platform" Hs) in Hp by auto.
      rewrite (zip_lookup_None cols vals _ Hm) in Hp. by apply Hp.
    - rewrite (build_row_text_col t _ "provider_name" Hs) in Hn by auto.
      rewrite (zip_lookup_None cols vals _ Hm) in Hn. by apply Hn. }
  rewrite Hnn in He. cbn [andb] in He. destruct oc; [done|].
  injection He as <-. split; [done|]. eexists. split; [done|].
  unfold same_contents. cbn [tbl_schema tbl_rows tbl_seq]. repeat split. lia.
Qed.

Lemma insert_without_identity_witness :
  ∃ t', exec Sample.ready_db
          (Insert OrIgnore "provider_blacklist" ["provider_name"] [VText "kimi"])
        = Ok (<["provider_blacklist" := t']> Sample.ready_db) ∧
        same_contents Sample.empty_blacklist t'.
Proof.
  assert (Sample.ready_db !! "provider_blacklist" = Some Sample.empty_blacklist) as Ht
    by (vm_compute; exact eq_refl).
  assert (exec Sample.ready_db
            (Insert OrIgnore "provider_blacklist" ["provider_name"] [VText "kimi"])
          = Ok (Sample.db_of (exec Sample.ready_db
                  (Insert OrIgnore "provider_blacklist" ["provider_name"] [VText "kimi"]))))
    as He by (vm_compute; exact eq_refl).
  assert ("platform" ∉ ["provider_name"] ∨ "provider_name" ∉ ["provider_name"]) as Hmiss
    by (left; by intros [[=]|[]%elem_of_nil]%elem_of_cons).
  destruct (insert_without_identity_rejected _ _ _ _ _ _ Ht eq_refl Hmiss He)
    as (_ & t' & Hd & Hsame).
  exists t'. split; [|exact Hsame]. rewrite <- Hd. exact He.
Defined.


(** *** InitDatabase *)

Lemma ensureBlacklistTables_stdout env s :
  stdout (ensureBlacklistTables env s).2 = stdout s.
Proof.
  revert s. change (moves (λ s s', stdout s' = stdout s) (ensureBlacklistTables env)).
  assert (∀ s1 s2 s3 : state, stdout s2 = stdout s1 → stdout s3 = stdout s2 →
                              stdout s3 = stdout s1) as Htrans by (intros; congruence).
  assert (∀ h q, moves (λ s s', stdout s' = stdout s) (db_Exec h q)) as Hexec
    by (intros h q s; apply db_Exec_cases).
  unfold ensureBlacklistTables.
  apply moves_bind; [done|by apply moves_wrapped, moves_pure_call|]. intros h.
  apply moves_bind; [done|by apply moves_wrapped|]. intros _.
  apply moves_bind; [done|by apply moves_wrapped|]. intros _.
  induction defaultSettings as [|[k v] l IH]; cbn [insertDefaults fst snd]; [done|].
  apply moves_bind; [done|by apply moves_wrapped|]. by intros _.
Qed.

Lemma InitDatabase_ok_inv env s s' :
  InitDatabase env s = (Ok tt, s') →
  ∃ home s1 s2,
    os_UserHomeDir env = Ok home ∧
    os_MkdirAll env (configDir home) 493 = None ∧
    xdb_Inits env (poolConfig home) = None ∧
    ensureRequestLogTable env s = (Ok tt, s1) ∧
    ensureBlacklistTables env s1 = (Ok tt, s2) ∧
    prewarm env s2 = (Ok tt, s').
Proof.
  intros Hrun.
  destruct (os_UserHomeDir env) as [home|e|] eqn:Hh;
    [|by unfold InitDatabase in Hrun; rewrite Hh in Hrun..].
  destruct (os_MkdirAll env (configDir home) 493) as [e|] eqn:Hm.
  { unfold InitDatabase in Hrun. rewrite Hh, bind_pure_ok in Hrun.
    fold (configDir home) in Hrun. by rewrite Hm in Hrun. }
  destruct (xdb_Inits env (poolConfig home)) as [e|] eqn:Hp.
  { unfold InitDatabase in Hrun. rewrite Hh, bind_pure_ok in Hrun.
    fold (configDir home) in Hrun. rewrite Hm in Hrun. simpl error_only in Hrun.
    rewrite bind_pure_ok in Hrun. fold (poolConfig home) in Hrun. by rewrite Hp in Hrun. }
  rewrite (InitDatabase_tables env s home Hh Hm Hp) in Hrun.
  apply bind_ok in Hrun as ([] & s1 & H1 & Hrun). apply wrapped_ok in H1.
  apply bind_ok in Hrun as ([] & s2 & H2 & Hrun). apply wrapped_ok in H2.
  apply bind_ok in Hrun as ([] & s3 & H3 & Hrun). injection Hrun as <-.
  exists home, s1, s2. auto 10.
Qed.

Lemma prewarm_ok env c s s' :
  xdb_DB env "default" = Ok (Some c) →
  prewarm env s = (Ok tt, s') →
  db s' = db s ∧
  ∃ line, stdout s' = (stdout s ++ [line])%list ∧
          ∀ n, line = PrewarmDone n →
               ∃ t, db s !! "request_log" = Some t ∧ n = Z.of_nat (length (tbl_rows t)).
Proof.
  intros Hc. unfold prewarm. rewrite Hc. unfold db_QueryRow_count, bind.
  pose proof (round_trip_db s) as [Hd Ho].
  destruct (round_trip s) as [[[]|e|] s1]; simpl in *.
  - unfold count. destruct (db s1 !! "request_log") as [t|] eqn:Ht; intros [= <-]; simpl.
    + split; [done|]. eexists. rewrite Ho. split; [done|]. intros n [= <-].
      exists t. by rewrite <- Hd.
    + split; [done|]. eexists. rewrite Ho. split; [done|]. by intros n.
  - intros [= <-]. simpl. split; [done|]. eexists. rewrite Ho. split; [done|]. by intros n.
  - done.
Qed.

(** X11. The database file [InitDatabase] leaves behind when it returns nil
    is the one [ensureRequestLogTable] followed by [ensureBlacklistTables]
    produced: the directory and pool setup and the prewarm query write
    nothing to it. *)
Theorem InitDatabase_database env s s' :
  InitDatabase env s = (Ok tt, s') →
  ∃ s1 s2,
    ensureRequestLogTable env s = (Ok tt, s1) ∧
    ensureBlacklistTables env s1 = (Ok tt, s2) ∧
    db s' = db s2.
Proof.
  intros (home & s1 & s2 & _ & _ & _ & H1 & H2 & H3)%InitDatabase_ok_inv.
  exists s1, s2. split; [done|]. split; [done|].
  pose proof H2 as (c & _ & _ & Hc & _)%ensureBlacklistTables_ok.
  by destruct (prewarm_ok env c s2 s' Hc H3).
Qed.

Lemma InitDatabase_database_witness :
  ∃ s1 s2,
    ensureRequestLogTable Sample.env Sample.fresh = (Ok tt, s1) ∧
    ensureBlacklistTables Sample.env s1 = (Ok tt, s2) ∧
    db (InitDatabase Sample.env Sample.fresh).2 = db s2.
Proof.
  apply InitDatabase_database. vm_compute. exact eq_refl.
Defined.

(** X12. When [InitDatabase] returns nil it has printed exactly one line
    after whatever [ensureRequestLogTable] printed, and when that line
    reports a record count, the count is the number of rows of request_log
    in the database file. *)
Theorem InitDatabase_prints_count env s s' :
  InitDatabase env s = (Ok tt, s') →
  ∃ s1 line,
    ensureRequestLogTable env s = (Ok tt, s1) ∧
    stdout s' = (stdout s1 ++ [line])%list ∧
    ∀ n, line = PrewarmDone n →
         ∃ t, db s' !! "request_log" = Some t ∧ n = Z.of_nat (length (tbl_rows t)).
Proof.
  intros (home & s1 & s2 & _ & _ & _ & H1 & H2 & H3)%InitDatabase_ok_inv.
  pose proof H2 as (c & _ & _ & Hc & _)%ensureBlacklistTables_ok.
  destruct (prewarm_ok env c s2 s' Hc H3) as (Hd & line & Ho & Hn).
  exists s1, line. split; [done|]. split.
  - rewrite Ho. pose proof (ensureBlacklistTables_stdout env s1) as E.
    rewrite H2 in E. simpl in E. by rewrite E.
  - intros n Hl. rewrite Hd. by apply Hn.
Qed.

Lemma InitDatabase_prints_witness :
  ∃ s1 line,
    ensureRequestLogTable Sample.env Sample.fresh = (Ok tt, s1) ∧
    stdout (InitDatabase Sample.env Sample.fresh).2 = (stdout s1 ++ [line])%list ∧
    ∀ n, line = PrewarmDone n →
         ∃ t, db (InitDatabase Sample.env Sample.fresh).2 !! "request_log" = Some t ∧
              n = Z.of_nat (length (tbl_rows t)).
Proof.
  apply InitDatabase_prints_count. vm_compute. exact eq_refl.
Defined.

(** X13. When [InitDatabase] returns an error, the error names the step that
    failed and wraps that step's own error; a failure to resolve the home
    directory, to create the config directory or to initialise the pool
    leaves the database file, and the whole process state, untouched. *)
Theorem InitDatabase_error_report env s err s' :
  InitDatabase env s = (Err err, s') →
  (∃ e, os_UserHomeDir env = Err e ∧ err = ErrWrap "获取用户目录失败" e ∧ s' = s) ∨
  (∃ home e, os_UserHomeDir env = Ok home ∧
             os_MkdirAll env (configDir home) 493 = Some e ∧
             err = ErrWrap "创建配置目录失败" e ∧ s' = s) ∨
  (∃ home e, os_UserHomeDir env = Ok home ∧
             xdb_Inits env (poolConfig home) = Some e ∧
             err = ErrWrap "初始化数据库失败" e ∧ s' = s) ∨
  (∃ e, ensureRequestLogTable env s = (Err e, s') ∧
        err = ErrWrap "初始化 request_log 表失败" e) ∨
  (∃ s1 e, ensureRequestLogTable env s = (Ok tt, s1) ∧
           ensureBlacklistTables env s1 = (Err e, s') ∧
           err = ErrWrap "初始化黑名单表失败" e).
Proof.
  intros Hrun.
  destruct (os_UserHomeDir env) as [home|e|] eqn:Hh.
  2: { left. unfold InitDatabase in Hrun. rewrite Hh in Hrun.
       injection Hrun as <- <-. eauto. }
  2: { unfold InitDatabase in Hrun. by rewrite Hh in Hrun. }
  right. destruct (os_MkdirAll env (configDir home) 493) as [e|] eqn:Hm.
  { left. unfold InitDatabase in Hrun. rewrite Hh, bind_pure_ok in Hrun.
    fold (configDir home) in Hrun. rewrite Hm in Hrun.
    injection Hrun as <- <-. eauto 10. }
  right. destruct (xdb_Inits env (poolConfig home)) as [e|] eqn:Hp.
  { left. unfold InitDatabase in Hrun. rewrite Hh, bind_pure_ok in Hrun.
    fold (configDir home) in Hrun. rewrite Hm in Hrun. simpl error_only in Hrun.
    rewrite bind_pure_ok in Hrun. fold (poolConfig home) in Hrun. rewrite Hp in Hrun.
    injection Hrun as <- <-. eauto 10. }
  right. rewrite (InitDatabase_tables env s home Hh Hm Hp) in Hrun.
  apply bind_err in Hrun as [Hrun|([] & s1 & H1 & Hrun)].
  { left. apply wrapped_err in Hrun as (e & Hrun & ->). eauto. }
  apply wrapped_ok in H1. right.
  apply bind_err in Hrun as [Hrun|([] & s2 & H2 & Hrun)].
  { apply wrapped_err in Hrun as (e & Hrun & ->). eauto. }
  apply bind_err in Hrun as [Hrun|([] & s3 & H3 & Hrun)]; [|done].
  pose proof (prewarm_not_err env s2) as Hne. by rewrite Hrun in Hne.
Qed.

Lemma InitDatabase_error_witness :
  InitDatabase Sample.env interrupted
  = (Err (ErrWrap "初始化黑名单表失败"
            (ErrWrap (insert_context "enable_blacklist") (ErrMsg "disk I/O error"))),
     (InitDatabase Sample.env interrupted).2).
Proof.
  assert (InitDatabase Sample.env interrupted
          = (Err (ErrWrap "初始化黑名单表失败"
                    (ErrWrap (insert_context "enable_blacklist") (ErrMsg "disk I/O error"))),
             (InitDatabase Sample.env interrupted).2)) as Hrun
    by (vm_compute; exact eq_refl).
  destruct (InitDatabase_error_report _ _ _ _ Hrun) as [_|_]; exact Hrun.
Defined.


(** X14. If [ensureRequestLogTable] leaves app_settings alone, then once
    [InitDatabase] has returned nil provider_blacklist exists and each of the
    three default keys holds the value it had before the call, or its
    default if it had none. *)
Theorem InitDatabase_seeds_defaults env s s' :
  db (ensureRequestLogTable env s).2 !! "app_settings" = db s !! "app_settings" →
  settings_table_ok (db s) →
  InitDatabase env s = (Ok tt, s') →
  is_Some (db s' !! "provider_blacklist") ∧
  ∀ k v, (k, v) ∈ defaultSettings →
         get_setting (db s') k = Some (default (VText v) (get_setting (db s) k)).
Proof.
  intros Hlog Hok (home & s1 & s2 & _ & _ & _ & H1 & H2 & H3)%InitDatabase_ok_inv.
  rewrite H1 in Hlog. simpl in Hlog.
  assert (settings_table_ok (db s1)) as Hok1 by (intros t; rewrite Hlog; apply Hok).
  destruct (ensureBlacklistTables_tables env s1 s2 Hok1 H2) as (_ & Hb & Hget).
  pose proof H2 as (c & _ & _ & Hc & _)%ensureBlacklistTables_ok.
  destruct (prewarm_ok env c s2 s' Hc H3) as [-> _]. split; [done|].
  intros k v Hin.
  by rewrite Hget, (default_of_defaultSettings k v Hin), (get_setting_ext _ _ _ Hlog).
Qed.

Lemma InitDatabase_seeds_witness :
  get_setting (db (InitDatabase Sample.env Sample.tuned).2) "enable_blacklist"
  = Some (VText "false") ∧
  get_setting (db (InitDatabase Sample.env Sample.tuned).2) "blacklist_duration_minutes"
  = Some (VText "30").
Proof.
  assert (db (ensureRequestLogTable Sample.env Sample.tuned).2 !! "app_settings"
          = db Sample.tuned !! "app_settings") as Hlog by (vm_compute; exact eq_refl).
  assert (settings_table_ok (db Sample.tuned)) as Hok
    by (intros t Ht; vm_compute in Ht; by inversion Ht).
  assert (InitDatabase Sample.env Sample.tuned
          = (Ok tt, (InitDatabase Sample.env Sample.tuned).2)) as Hrun
    by (vm_compute; exact eq_refl).
  destruct (InitDatabase_seeds_defaults _ _ _ Hlog Hok Hrun) as [_ Hget].
  split.
  - rewrite (Hget "enable_blacklist" "true") by (by left).
    vm_compute. exact eq_refl.
  - rewrite (Hget "blacklist_duration_minutes" "30") by (by right; right; left).
    vm_compute. exact eq_refl.
Defined.


(** *** An app_settings table from elsewhere *)

Lemma known_cols_missing s c cs :
  c ∈ cs → c ∉ col_names s → known_cols s cs = false.
Proof.
  intros Hc Hs. unfold known_cols. apply not_true_is_false. intros H.
  rewrite forallb_forall in H. specialize (H c ltac:(by apply list_elem_of_In)).
  apply existsb_exists in H as (c' & Hin%list_elem_of_In & ->%String.eqb_eq). done.
Qed.

Lemma insert_default_foreign d t k v :
  d !! "app_settings" = Some t →
  "key" ∉ col_names (tbl_schema t) ∨ "value" ∉ col_names (tbl_schema t) →
  exec d (insertDefaultSQL k v) = Err (ErrMsg "no such column").
Proof.
  intros Ht Hmiss. unfold insertDefaultSQL. cbn [exec]. rewrite Ht. unfold insert_into.
  change (negb (length ["key"; "value"] =? length [VText k; VText v])%nat) with false.
  cbv iota.
  assert (known_cols (tbl_schema t) ["key"; "value"] = false) as ->; [|done].
  destruct Hmiss as [Hm|Hm].
  - apply (known_cols_missing _ "key"); [by left|done].
  - apply (known_cols_missing _ "value"); [by right; left|done].
Qed.

(** X15. If app_settings already exists without a key column or without a
    value column, [ensureBlacklistTables] does not return nil, and it leaves
    that table exactly as it found it. *)
Theorem ensureBlacklistTables_foreign_settings env s t :
  db s !! "app_settings" = Some t →
  "key" ∉ col_names (tbl_schema t) ∨ "value" ∉ col_names (tbl_schema t) →
  (ensureBlacklistTables env s).1 ≠ Ok tt ∧
  db (ensureBlacklistTables env s).2 !! "app_settings" = Some t.
Proof.
  intros Ht Hmiss. split.
  - destruct (ensureBlacklistTables env s) as [o s'] eqn:Hrun. simpl. intros ->.
    apply ensureBlacklistTables_ok in Hrun as (c & s1 & s2 & Hc & H1 & H2 & H3).
    apply db_Exec_ok in H1 as [H1 _]. apply db_Exec_ok in H2 as [H2 _].
    assert (db s2 !! "app_settings" = Some t) as Ht2.
    { rewrite (exec_other _ _ _ _ H2) by done.
      unfold createAppSettingsSQL in H1. rewrite (create_existing _ _ _ _ Ht) in H1.
      by injection H1 as <-. }
    cbn [defaultSettings insertDefaults fst snd] in H3.
    apply bind_ok in H3 as ([] & s3 & H3 & _).
    apply wrapped_ok, db_Exec_ok in H3 as [H3 _].
    by rewrite (insert_default_foreign _ t _ _ Ht2 Hmiss) in H3.
  - revert Ht.
    apply (moves_ensureBlacklistTables
             (λ d d', d !! "app_settings" = Some t → d' !! "app_settings" = Some t)).
    + done.
    + auto.
    + intros d d' He Ht. unfold createAppSettingsSQL in He.
      rewrite (create_existing _ _ _ _ Ht) in He. by injection He as <-.
    + intros d d' He Ht. by rewrite (exec_other _ _ _ _ He).
    + intros k v d d' _ He Ht. by rewrite (insert_default_foreign d t k v Ht Hmiss) in He.
Qed.

Lemma foreign_settings_witness :
  (ensureBlacklistTables Sample.env legacy).1 ≠ Ok tt ∧
  db (ensureBlacklistTables Sample.env legacy).2 !! "app_settings"
  = db legacy !! "app_settings".
Proof.
  assert (db legacy !! "app_settings" = db legacy !! "app_settings") as Ht by reflexivity.
  unfold legacy at 2 in Ht. cbn [db] in Ht. rewrite lookup_singleton_eq in Ht.
  rewrite Ht.
  apply (ensureBlacklistTables_foreign_settings Sample.env legacy _ Ht).
  left. cbn. by intros [[=]|[[=]|[]%elem_of_nil]%elem_of_cons]%elem_of_cons.
Defined.

End BootFacts.
